(** * navigation: a Cloudflare Worker serving a bookmark page over a KV store

    Shallow embedding of [src/worker.js]: the router, the session checker,
    the auth handlers and the data handlers, over an explicit key-value
    store, together with the JavaScript built-ins they rely on
    ([JSON.parse], [JSON.stringify], [String.prototype.split], [trim],
    [startsWith], [Array.prototype.find], strict equality and truthiness).

    Conventions of the model.
    - A JavaScript string is a [string]: a sequence of 8-bit characters
      (text is read as its UTF-8 bytes; a header is a byte string).
    - [NAVIGATION_STORE] is a [gmap string string]; [get] of a missing key
      is [None] (JavaScript [null]).
    - A handler is a function from the store to a response and the store
      it leaves behind; a thrown exception keeps the writes done so far.
    - IEEE-754 numbers, the coercion the store applies to a value that is
      not a string, and the two HTML templates are parameters. *)

From Stdlib Require Import String Ascii List NArith Lia Bool.
From stdpp Require Import gmap strings.

Set Warnings "-register-all".

Open Scope list_scope.
Open Scope string_scope.

(** ** Characters *)

Module Chars.

#[local] Open Scope char_scope.

Definition code (c : ascii) : N := N_of_ascii c.

Definition dquote : ascii := "034".
Definition backslash : ascii := "\".

(** The characters [JSON.parse] skips between tokens: space, tab, line
    feed and carriage return. *)
Definition is_json_ws (c : ascii) : bool :=
  match c with
  | " " | "009" | "010" | "013" => true
  | _ => false
  end.

(** [String.prototype.trim] removes WhiteSpace and LineTerminator code
    units; among the 8-bit ones these are TAB, LF, VT, FF, CR, SP, NBSP. *)
Definition is_js_space (c : ascii) : bool :=
  match c with
  | "009" | "010" | "011" | "012" | "013" | " " | "160" => true
  | _ => false
  end.

Definition is_control (c : ascii) : bool := (code c <? 32)%N.

Definition is_digit (c : ascii) : bool :=
  ((48 <=? code c) && (code c <=? 57))%N.

Definition is_lower (c : ascii) : bool :=
  ((97 <=? code c) && (code c <=? 122))%N.

(** Digits and lower-case letters: the alphabet of [toString(36)]. *)
Definition is_base36 (c : ascii) : bool := is_digit c || is_lower c.

Definition hex_val (c : ascii) : option N :=
  let n := code c in
  if ((48 <=? n) && (n <=? 57))%N then Some (n - 48)%N
  else if ((97 <=? n) && (n <=? 102))%N then Some (n - 87)%N
  else if ((65 <=? n) && (n <=? 70))%N then Some (n - 55)%N
  else None.

Definition hex_digit (n : N) : ascii :=
  if (n <? 10)%N then ascii_of_N (48 + n) else ascii_of_N (87 + n).

(** Digit [n] of a radix-36 numeral. *)
Definition digit36 (n : N) : ascii :=
  if (n <? 10)%N then ascii_of_N (48 + n) else ascii_of_N (87 + n).

Definition hex4 (a b c d : ascii) : option N :=
  match hex_val a, hex_val b, hex_val c, hex_val d with
  | Some x, Some y, Some z, Some w => Some (((x * 16 + y) * 16 + z) * 16 + w)%N
  | _, _, _, _ => None
  end.

Definition is_high_surrogate (n : N) : bool := ((55296 <=? n) && (n <=? 56319))%N.
Definition is_low_surrogate (n : N) : bool := ((56320 <=? n) && (n <=? 57343))%N.

Definition combine_surrogates (hi lo : N) : N :=
  (65536 + (hi - 55296) * 1024 + (lo - 56320))%N.

(** UTF-8 bytes of a code point (a lone surrogate is encoded like any
    other three-byte code point). *)
Definition utf8 (n : N) : list ascii :=
  if (n <? 128)%N then [ascii_of_N n]
  else if (n <? 2048)%N then
    [ascii_of_N (192 + n / 64); ascii_of_N (128 + n mod 64)]
  else if (n <? 65536)%N then
    [ascii_of_N (224 + n / 4096); ascii_of_N (128 + (n / 64) mod 64);
     ascii_of_N (128 + n mod 64)]
  else
    [ascii_of_N (240 + n / 262144); ascii_of_N (128 + (n / 4096) mod 64);
     ascii_of_N (128 + (n / 64) mod 64); ascii_of_N (128 + n mod 64)].

End Chars.

Import Chars.

(** ** Numbers

    A JSON number is an IEEE-754 double. Its arithmetic is left abstract:
    the conversion of a number literal, strict equality of two numbers and
    the text [JSON.stringify] prints for a number. *)

Class Numbers := {
  number : Type;
  number_of_literal : string -> number;
  number_eqb : number -> number -> bool;
  number_to_json : number -> string
}.

(** The parser recurses on a fuel argument; [Starved] is kept apart from
    [Malformed] so that running out of fuel is never mistaken for a
    syntax error. *)
Inductive outcome (A : Type) : Type :=
  | Parsed (a : A)
  | Malformed
  | Starved.

Arguments Parsed {A} a.
Arguments Malformed {A}.
Arguments Starved {A}.

(** ** JSON values *)

Section Json.

Context {NUM : Numbers}.

#[local] Open Scope char_scope.
#[local] Open Scope list_scope.

Inductive json : Type :=
  | JNull
  | JBool (b : bool)
  | JNum (n : number)
  | JStr (s : string)
  | JArr (items : list json)
  | JObj (members : list (string * json)).

(** *** JSON.stringify *)

(** QuoteJSONString, one character at a time. *)
Definition escape_char (c : ascii) : list ascii :=
  match c with
  | "034" => [backslash; dquote]
  | "\" => [backslash; backslash]
  | "008" => [backslash; "b"]
  | "012" => [backslash; "f"]
  | "010" => [backslash; "n"]
  | "013" => [backslash; "r"]
  | "009" => [backslash; "t"]
  | _ =>
    if is_control c
    then [backslash; "u"; "0"; "0"; hex_digit (code c / 16); hex_digit (code c mod 16)]
    else [c]
  end.

Definition quote (s : list ascii) : list ascii :=
  dquote :: flat_map escape_char s ++ [dquote].

Definition quote_string (s : string) : list ascii := quote (list_ascii_of_string s).

(** [Array.prototype.join] on character lists. *)
Fixpoint join (sep : ascii) (parts : list (list ascii)) : list ascii :=
  match parts with
  | [] => []
  | [x] => x
  | x :: r => x ++ sep :: join sep r
  end.

Fixpoint json_stringify_chars (v : json) : list ascii :=
  match v with
  | JNull => list_ascii_of_string "null"
  | JBool true => list_ascii_of_string "true"
  | JBool false => list_ascii_of_string "false"
  | JNum n => list_ascii_of_string (number_to_json n)
  | JStr s => quote_string s
  | JArr items => "[" :: join "," (map json_stringify_chars items) ++ ["]"]
  | JObj members =>
    "{" :: join ","
             (map (fun kv => quote_string (fst kv) ++ ":" :: json_stringify_chars (snd kv))
                members) ++ ["}"]
  end.

Definition json_stringify (v : json) : string :=
  string_of_list_ascii (json_stringify_chars v).

(** *** JSON.parse *)

Fixpoint skip_ws (l : list ascii) : list ascii :=
  match l with
  | c :: r => if is_json_ws c then skip_ws r else l
  | [] => []
  end.

Definition simple_escape (e : ascii) : option ascii :=
  match e with
  | "034" => Some dquote
  | "\" => Some backslash
  | "/" => Some "/"
  | "b" => Some "008"
  | "f" => Some "012"
  | "n" => Some "010"
  | "r" => Some "013"
  | "t" => Some "009"
  | _ => None
  end.

Definition prepend (cs : list ascii) (o : option (list ascii * list ascii))
  : option (list ascii * list ascii) :=
  match o with
  | Some (s, r) => Some (cs ++ s, r)
  | None => None
  end.

(** The characters of a string literal after its opening quote, up to
    and including the closing quote. A [\u] escape of a high surrogate
    followed by a [\u] escape of a low surrogate is one code point. *)
Fixpoint parse_chars (l : list ascii) : option (list ascii * list ascii) :=
  match l with
  | [] => None
  | c :: r =>
    if Ascii.eqb c dquote then Some ([], r)
    else if Ascii.eqb c backslash then
      match r with
      | [] => None
      | e :: r0 =>
        match simple_escape e with
        | Some x => prepend [x] (parse_chars r0)
        | None =>
          if Ascii.eqb e "u" then
            match r0 with
            | h1 :: h2 :: h3 :: h4 :: r1 =>
              match hex4 h1 h2 h3 h4 with
              | None => None
              | Some hi =>
                if is_high_surrogate hi then
                  match r1 with
                  | b :: u :: l1 :: l2 :: l3 :: l4 :: r2 =>
                    if Ascii.eqb b backslash && Ascii.eqb u "u" then
                      match hex4 l1 l2 l3 l4 with
                      | Some lo =>
                        if is_low_surrogate lo
                        then prepend (utf8 (combine_surrogates hi lo)) (parse_chars r2)
                        else prepend (utf8 hi) (parse_chars r1)
                      | None => prepend (utf8 hi) (parse_chars r1)
                      end
                    else prepend (utf8 hi) (parse_chars r1)
                  | _ => prepend (utf8 hi) (parse_chars r1)
                  end
                else prepend (utf8 hi) (parse_chars r1)
              end
            | _ => None
            end
          else None
        end
      end
    else if is_control c then None
    else prepend [c] (parse_chars r)
  end.

Fixpoint span_digits (l : list ascii) : list ascii * list ascii :=
  match l with
  | c :: r =>
    if is_digit c then let (ds, r') := span_digits r in (c :: ds, r') else ([], l)
  | [] => ([], [])
  end.

(** A number literal: an optional minus sign, an integer part (a single
    zero, or a non-zero digit followed by digits), an optional fraction
    (a dot and at least one digit) and an optional exponent (e or E, an
    optional sign, at least one digit). *)
Definition lex_int (l : list ascii) : option (list ascii * list ascii) :=
  match l with
  | [] => None
  | c :: r =>
    if Ascii.eqb c "0" then Some ([c], r)
    else if is_digit c then let (ds, r') := span_digits r in Some (c :: ds, r')
    else None
  end.

Definition lex_digits (pre r : list ascii) : option (list ascii * list ascii) :=
  match span_digits r with
  | ([], _) => None
  | (ds, r') => Some (pre ++ ds, r')
  end.

Definition lex_frac (l : list ascii) : option (list ascii * list ascii) :=
  match l with
  | [] => Some ([], l)
  | c :: r => if Ascii.eqb c "." then lex_digits [c] r else Some ([], l)
  end.

Definition lex_exp (l : list ascii) : option (list ascii * list ascii) :=
  match l with
  | [] => Some ([], l)
  | c :: r =>
    if Ascii.eqb c "e" || Ascii.eqb c "E" then
      match r with
      | [] => None
      | s :: r' =>
        if Ascii.eqb s "+" || Ascii.eqb s "-" then lex_digits [c; s] r'
        else lex_digits [c] r
      end
    else Some ([], l)
  end.

Definition lex_sign (l : list ascii) : list ascii * list ascii :=
  match l with
  | [] => ([], l)
  | c :: r => if Ascii.eqb c "-" then ([c], r) else ([], l)
  end.

Definition lex_number (l : list ascii) : option (list ascii * list ascii) :=
  let (sign, l0) := lex_sign l in
  match lex_int l0 with
  | None => None
  | Some (i, l1) =>
    match lex_frac l1 with
    | None => None
    | Some (f, l2) =>
      match lex_exp l2 with
      | None => None
      | Some (e, l3) => Some (sign ++ i ++ f ++ e, l3)
      end
    end
  end.

(** *** Property order of an object

    An own property whose key is an array index (a canonical numeral
    below 2^32 - 1) is enumerated before the others, in ascending order;
    the other keys keep their creation order. Defining a key that exists
    replaces its value in place. *)

Fixpoint digits_value (acc : N) (l : list ascii) : option N :=
  match l with
  | [] => Some acc
  | c :: r => if is_digit c then digits_value (acc * 10 + (code c - 48))%N r else None
  end.

Definition array_index (k : string) : option N :=
  match list_ascii_of_string k with
  | [] => None
  | ["0"] => Some 0%N
  | "0" :: _ => None
  | l =>
    if (10 <? length l)%nat then None
    else match digits_value 0 l with
         | Some n => if (n <? 4294967295)%N then Some n else None
         | None => None
         end
  end.

Definition has_key (k : string) (kvs : list (string * json)) : bool :=
  existsb (fun kv => String.eqb (fst kv) k) kvs.

Fixpoint obj_replace (k : string) (v : json) (kvs : list (string * json))
  : list (string * json) :=
  match kvs with
  | [] => []
  | (k', v') :: r =>
    if String.eqb k' k then (k', v) :: r else (k', v') :: obj_replace k v r
  end.

Fixpoint obj_insert_index (i : N) (k : string) (v : json) (kvs : list (string * json))
  : list (string * json) :=
  match kvs with
  | [] => [(k, v)]
  | (k', v') :: r =>
    match array_index k' with
    | Some j => if (j <? i)%N then (k', v') :: obj_insert_index i k v r
                else (k, v) :: kvs
    | None => (k, v) :: kvs
    end
  end.

Definition obj_set (kvs : list (string * json)) (kv : string * json)
  : list (string * json) :=
  let (k, v) := kv in
  if has_key k kvs then obj_replace k v kvs
  else match array_index k with
       | Some i => obj_insert_index i k v kvs
       | None => kvs ++ [(k, v)]
       end.

Definition obj_of_members (kvs : list (string * json)) : list (string * json) :=
  fold_left obj_set kvs [].

(** *** The recursive-descent parser *)

Fixpoint strip_prefix (lit l : list ascii) : option (list ascii) :=
  match lit, l with
  | [], _ => Some l
  | a :: lit', b :: l' => if Ascii.eqb a b then strip_prefix lit' l' else None
  | _ :: _, [] => None
  end.

Definition keyword (lit : string) (v : json) (l : list ascii)
  : outcome (json * list ascii) :=
  match strip_prefix (list_ascii_of_string lit) l with
  | Some r => Parsed (v, r)
  | None => Malformed
  end.

Definition lift {A B : Type} (g : A -> B) (o : outcome (A * list ascii))
  : outcome (B * list ascii) :=
  match o with
  | Parsed (a, r) => Parsed (g a, r)
  | Malformed => Malformed
  | Starved => Starved
  end.

Fixpoint parse_value (fuel : nat) (l : list ascii) : outcome (json * list ascii) :=
  match fuel with
  | O => Starved
  | S fuel' =>
    match skip_ws l with
    | [] => Malformed
    | c :: r =>
      if Ascii.eqb c "n" then keyword "null" JNull (c :: r)
      else if Ascii.eqb c "t" then keyword "true" (JBool true) (c :: r)
      else if Ascii.eqb c "f" then keyword "false" (JBool false) (c :: r)
      else if Ascii.eqb c dquote then
        match parse_chars r with
        | Some (s, r') => Parsed (JStr (string_of_list_ascii s), r')
        | None => Malformed
        end
      else if Ascii.eqb c "[" then
        match strip_prefix ["]"] (skip_ws r) with
        | Some r' => Parsed (JArr [], r')
        | None => lift JArr (parse_elements fuel' r)
        end
      else if Ascii.eqb c "{" then
        match strip_prefix ["}"] (skip_ws r) with
        | Some r' => Parsed (JObj [], r')
        | None => lift (fun kvs => JObj (obj_of_members kvs)) (parse_members fuel' r)
        end
      else if is_digit c || Ascii.eqb c "-" then
        match lex_number (c :: r) with
        | Some (lit, r') => Parsed (JNum (number_of_literal (string_of_list_ascii lit)), r')
        | None => Malformed
        end
      else Malformed
    end
  end
with parse_elements (fuel : nat) (l : list ascii) : outcome (list json * list ascii) :=
  match fuel with
  | O => Starved
  | S fuel' =>
    match parse_value fuel' l with
    | Parsed (v, r) =>
      match skip_ws r with
      | [] => Malformed
      | c :: r' =>
        if Ascii.eqb c "," then lift (cons v) (parse_elements fuel' r')
        else if Ascii.eqb c "]" then Parsed ([v], r')
        else Malformed
      end
    | Malformed => Malformed
    | Starved => Starved
    end
  end
with parse_members (fuel : nat) (l : list ascii)
  : outcome (list (string * json) * list ascii) :=
  match fuel with
  | O => Starved
  | S fuel' =>
    match strip_prefix [dquote] (skip_ws l) with
    | None => Malformed
    | Some r =>
      match parse_chars r with
      | None => Malformed
      | Some (k, r0) =>
        match strip_prefix [":"] (skip_ws r0) with
        | None => Malformed
        | Some r1 =>
          match parse_value fuel' r1 with
          | Parsed (v, r2) =>
            match skip_ws r2 with
            | [] => Malformed
            | c :: r3 =>
              if Ascii.eqb c "," then
                lift (cons (string_of_list_ascii k, v)) (parse_members fuel' r3)
              else if Ascii.eqb c "}" then Parsed ([(string_of_list_ascii k, v)], r3)
              else Malformed
            end
          | Malformed => Malformed
          | Starved => Starved
          end
        end
      end
    end
  end.

(** [JSON.parse(text)]: [None] is a thrown [SyntaxError]. Twice the
    length of the text (plus two) is always enough fuel, see
    [json_parse_fuel] below. *)
Definition json_parse_with (fuel : nat) (text : string) : outcome json :=
  match parse_value fuel (list_ascii_of_string text) with
  | Parsed (v, r) =>
    match skip_ws r with
    | [] => Parsed v
    | _ => Malformed
    end
  | Malformed => Malformed
  | Starved => Starved
  end.

Definition json_parse (text : string) : option json :=
  match json_parse_with (2 * String.length text + 2) text with
  | Parsed v => Some v
  | _ => None
  end.

End Json.

Arguments json : clear implicits.

(** A trivial instance used to run the model: a number is its literal. *)
Definition literal_numbers : Numbers :=
  {| number := string;
     number_of_literal := fun s => s;
     number_eqb := String.eqb;
     number_to_json := fun s => s |}.

(** ** JavaScript values and strings *)

Section Values.

Context {NUM : Numbers}.

#[local] Open Scope list_scope.

(** The values the handlers manipulate: [undefined], a value produced by
    [JSON.parse] (or a string or [null] from the store or the form), and
    a [File] form entry. *)
Inductive jsval : Type :=
  | VUndefined
  | VJson (j : json NUM)
  | VFile.

Definition VNull : jsval := VJson JNull.
Definition VStr (s : string) : jsval := VJson (JStr s).

(** A value read from the store or from a header: [null] or a string. *)
Definition of_nullable (o : option string) : jsval :=
  match o with
  | Some s => VStr s
  | None => VNull
  end.

(** [a === b]. Every comparison of the program is between two values of
    different origin, so two arrays, two objects or two files are never
    the same reference. *)
Definition strict_eq (a b : jsval) : bool :=
  match a, b with
  | VUndefined, VUndefined => true
  | VJson JNull, VJson JNull => true
  | VJson (JBool x), VJson (JBool y) => Bool.eqb x y
  | VJson (JNum x), VJson (JNum y) => number_eqb x y
  | VJson (JStr x), VJson (JStr y) => String.eqb x y
  | _, _ => false
  end.

(** Truthiness of a value that is [null], [undefined] or a string. *)
Definition truthy (o : option string) : bool :=
  match o with
  | Some s => negb (String.eqb s "")
  | None => false
  end.

Fixpoint assoc {A : Type} (k : string) (kvs : list (string * A)) : option A :=
  match kvs with
  | [] => None
  | (k', v) :: r => if String.eqb k' k then Some v else assoc k r
  end.

(** [v.name] for a non-null parsed value and one of the names the
    handlers destructure (none of them is inherited from a prototype). *)
Definition prop (v : json NUM) (name : string) : jsval :=
  match v with
  | JObj kvs => match assoc name kvs with Some x => VJson x | None => VUndefined end
  | _ => VUndefined
  end.

(** [JSON.stringify(v)] at the top level: [undefined] stays [undefined]. *)
Definition js_stringify (v : jsval) : jsval :=
  match v with
  | VJson j => VStr (json_stringify j)
  | _ => VUndefined
  end.

(** [s.split(sep)] for a one-character separator. *)
Fixpoint split_chars (sep : ascii) (l : list ascii) : list (list ascii) :=
  match l with
  | [] => [[]]
  | c :: r =>
    if Ascii.eqb c sep then [] :: split_chars sep r
    else match split_chars sep r with
         | h :: t => (c :: h) :: t
         | [] => [[c]]
         end
  end.

Definition split (sep : ascii) (s : string) : list string :=
  map string_of_list_ascii (split_chars sep (list_ascii_of_string s)).

Fixpoint trim_start (l : list ascii) : list ascii :=
  match l with
  | c :: r => if is_js_space c then trim_start r else l
  | [] => []
  end.

Definition trim (s : string) : string :=
  string_of_list_ascii
    (rev (trim_start (rev (trim_start (list_ascii_of_string s))))).

Definition startsWith (s prefix : string) : bool := String.prefix prefix s.

(** [Number.prototype.toString(36)] of a natural number. *)
Fixpoint to_radix36 (fuel : nat) (n : N) (acc : list ascii) : list ascii :=
  match fuel with
  | O => acc
  | S fuel' =>
    let acc' := digit36 (n mod 36) :: acc in
    if (n / 36 =? 0)%N then acc' else to_radix36 fuel' (n / 36)%N acc'
  end.

Definition toString36 (n : N) : string :=
  string_of_list_ascii (to_radix36 (S (N.to_nat (N.log2 n))) n []).

End Values.

Arguments jsval : clear implicits.

(** ** The key-value store and the effects of a handler *)

(** What [NAVIGATION_STORE.put] does with a value that is not a string:
    [Some s] when the runtime stores the text [s] in its place, [None]
    when it throws a [TypeError]. *)
Class Runtime (NUM : Numbers) := {
  put_coerce : jsval NUM -> option string
}.

(** The two page templates, [generateHomePage()] and
    [generateAdminPage(isAuthenticated)]. *)
Class Templates := {
  generateHomePage : string;
  generateAdminPage : bool -> string
}.

Inductive completion (A : Type) : Type :=
  | Return (a : A)
  | Throw.

Arguments Return {A} a.
Arguments Throw {A}.

Definition js (A : Type) : Type := gmap string string -> completion A * gmap string string.

#[export] Instance js_ret : MRet js := fun A a st => (Return a, st).

#[export] Instance js_bind : MBind js := fun A B f m st =>
  match m st with
  | (Return a, st') => f a st'
  | (Throw, st') => (Throw, st')
  end.

Definition throw {A : Type} : js A := fun st => (Throw, st).

(** [try { body } catch (error) { handler }] *)
Definition try_catch {A : Type} (body handler : js A) : js A := fun st =>
  match body st with
  | (Return a, st') => (Return a, st')
  | (Throw, st') => handler st'
  end.

Section Store.

Context {NUM : Numbers} {RT : Runtime NUM}.

Definition kv_get (key : string) : js (option string) :=
  fun st => (Return (st !! key), st).

(** The text [put] stores for a value: a string is stored as it is. *)
Definition put_text (value : jsval NUM) : option string :=
  match value with
  | VJson (JStr s) => Some s
  | _ => put_coerce value
  end.

Definition kv_put (key : string) (value : jsval NUM) : js unit :=
  fun st =>
    match put_text value with
    | Some s => (Return tt, <[key := s]> st)
    | None => (Throw, st)
    end.

Definition kv_delete (key : string) : js unit :=
  fun st => (Return tt, delete key st).

Definition js_json_parse (text : string) : js (json NUM) :=
  match json_parse text with
  | Some v => mret v
  | None => throw
  end.

End Store.

(** ** Requests and responses *)

Inductive form_entry : Type :=
  | FormText (s : string)
  | FormFile.

(** The parts of a [Request] the worker reads: the method, the path of
    the URL, the [Cookie] header, the body as text (for [request.json()])
    and the body as form data (for [request.formData()], [None] when the
    body is not a form and the call throws). *)
Record request : Type := {
  method : string;
  pathname : string;
  cookie : option string;
  text : string;
  form : option (list (string * form_entry))
}.

(** [new Response(body, { headers })]: the status is 200. *)
Record response : Type := {
  status : nat;
  headers : list (string * string);
  body : string
}.

Definition Response (b : string) (h : list (string * string)) : response :=
  {| status := 200; headers := h; body := b |}.

(** What [Math.random()] and [Date.now()] answer during one request:
    the digits of the random fraction in radix 36, and the clock. *)
Record clock : Type := {
  random_digits : list N;
  now : N
}.

Record session : Type := {
  isAuthenticated : bool;
  token : option string
}.

(** ** The worker *)

Section Worker.

Context {NUM : Numbers} {RT : Runtime NUM} {TPL : Templates}.

Definition json_headers : list (string * string) :=
  [("Content-Type", "application/json")].

Definition html_headers : list (string * string) :=
  [("Content-Type", "text/html; charset=UTF-8")].

Definition session_cookie (tok : string) : string :=
  "admin_session=" +:+ tok +:+ "; Max-Age=3600; Path=/; HttpOnly".

Definition success_body : string :=
  json_stringify (JObj [("success", JBool true)] : json NUM).

Definition failure_body (message : string) : string :=
  json_stringify (JObj [("success", JBool false); ("message", JStr message)] : json NUM).

Definition password_changed_body : string :=
  json_stringify
    (JObj [("success", JBool true); ("message", JStr "密码修改成功")] : json NUM).

Definition data_body (categories sites : json NUM) : string :=
  json_stringify (JObj [("categories", categories); ("sites", sites)]).

(** [handleGetData] *)
Definition handleGetData : js response :=
  try_catch
    (categories ← kv_get "categories";
     sites ← kv_get "sites";
     c ← (if truthy categories then js_json_parse (default "" categories)
          else mret (JArr []));
     s ← (if truthy sites then js_json_parse (default "" sites)
          else mret (JArr []));
     mret (Response (data_body c s)
             [("Content-Type", "application/json"); ("Cache-Control", "no-cache")]))
    (mret (Response (data_body (JArr []) (JArr [])) json_headers)).

(** [checkSession] *)
Definition checkSession (req : request) : js session :=
  let cookieHeader := cookie req in
  if negb (truthy cookieHeader)
  then mret {| isAuthenticated := false; token := None |}
  else
    let cookies := map trim (split ";" (default "" cookieHeader)) in
    let sessionCookie := find (fun c => startsWith c "admin_session=") cookies in
    if negb (truthy sessionCookie)
    then mret {| isAuthenticated := false; token := None |}
    else
      let tok := nth_error (split "=" (default "" sessionCookie)) 1 in
      if negb (truthy tok)
      then mret {| isAuthenticated := false; token := None |}
      else
        storedToken ← kv_get "admin_session";
        if strict_eq (of_nullable storedToken) (of_nullable tok)
        then mret {| isAuthenticated := true; token := tok |}
        else mret {| isAuthenticated := false; token := None |}.

(** [generateToken]:
    [Math.random().toString(36).substring(2) + Date.now().toString(36)] *)
Definition random_toString36 (digits : list N) : string :=
  match digits with
  | [] => "0"
  | _ => "0." +:+ string_of_list_ascii (map (fun d => digit36 (d mod 36)) digits)
  end.

Definition substring_from (n : nat) (s : string) : string :=
  string_of_list_ascii (skipn n (list_ascii_of_string s)).

Definition generateToken (clk : clock) : string :=
  substring_from 2 (random_toString36 (random_digits clk)) +:+ toString36 (now clk).

(** [formData.get(name)]: the first entry of that name, or [null]. *)
Definition form_get (name : string) (entries : list (string * form_entry)) : jsval NUM :=
  match assoc name entries with
  | Some (FormText s) => VStr s
  | Some FormFile => VFile
  | None => VNull
  end.

Definition request_formData (req : request) : js (list (string * form_entry)) :=
  match form req with
  | Some entries => mret entries
  | None => throw
  end.

(** [request.json()] followed by the destructuring of the result, which
    throws when the value is [null]. *)
Definition request_json_object (req : request) : js (json NUM) :=
  v ← js_json_parse (text req);
  match v with
  | JNull => throw
  | _ => mret v
  end.

(** [handleAuth] *)
Definition handleAuth (req : request) (clk : clock) : js response :=
  try_catch
    (formData ← request_formData req;
     let inputPassword := form_get "password" formData in
     storedPassword ← kv_get "admin_password";
     if negb (truthy storedPassword) then
       _ ← kv_put "admin_password" inputPassword;
       let tok := generateToken clk in
       _ ← kv_put "admin_session" (VStr tok);
       mret (Response success_body [("Set-Cookie", session_cookie tok)])
     else if strict_eq inputPassword (of_nullable storedPassword) then
       let tok := generateToken clk in
       _ ← kv_put "admin_session" (VStr tok);
       mret (Response success_body [("Set-Cookie", session_cookie tok)])
     else
       mret (Response (failure_body "密码错误") json_headers))
    (mret (Response (failure_body "服务器错误") json_headers)).

(** [handleLogout] *)
Definition handleLogout : js response :=
  _ ← kv_delete "admin_session";
  mret (Response success_body
          [("Content-Type", "application/json");
           ("Set-Cookie", "admin_session=; Max-Age=0; Path=/; HttpOnly")]).

(** [handleChangePassword] *)
Definition handleChangePassword (req : request) : js response :=
  try_catch
    (o ← request_json_object req;
     let currentPassword := prop o "currentPassword" in
     let newPassword := prop o "newPassword" in
     let confirmPassword := prop o "confirmPassword" in
     storedPassword ← kv_get "admin_password";
     if negb (strict_eq currentPassword (of_nullable storedPassword)) then
       mret (Response (failure_body "当前密码错误") json_headers)
     else if negb (strict_eq newPassword confirmPassword) then
       mret (Response (failure_body "新密码和确认密码不一致") json_headers)
     else
       _ ← kv_put "admin_password" newPassword;
       mret (Response password_changed_body json_headers))
    (mret (Response (failure_body "修改失败") json_headers)).

(** [handleSaveData] *)
Definition handleSaveData (req : request) : js response :=
  try_catch
    (o ← request_json_object req;
     let categories := prop o "categories" in
     let sites := prop o "sites" in
     _ ← kv_put "categories" (js_stringify categories);
     _ ← kv_put "sites" (js_stringify sites);
     mret (Response success_body json_headers))
    (mret (Response (failure_body "保存失败") json_headers)).

(** [handleAdminRequest] *)
Definition handleAdminRequest (req : request) (clk : clock) : js response :=
  let path := pathname req in
  if String.eqb path "/admin/auth" && String.eqb (method req) "POST" then
    handleAuth req clk
  else if String.eqb path "/admin/save" && String.eqb (method req) "POST" then
    handleSaveData req
  else if String.eqb path "/admin/change-password" && String.eqb (method req) "POST" then
    handleChangePassword req
  else if String.eqb path "/admin/logout" && String.eqb (method req) "POST" then
    handleLogout
  else
    s ← checkSession req;
    if isAuthenticated s then
      mret (Response (generateAdminPage true)
              [("Content-Type", "text/html; charset=UTF-8");
               ("Set-Cookie", session_cookie (default "" (token s)))])
    else
      mret (Response (generateAdminPage false) html_headers).

(** [handleRequest] *)
Definition handleRequest (req : request) (clk : clock) : js response :=
  let path := pathname req in
  if String.eqb path "/data" && String.eqb (method req) "GET" then
    handleGetData
  else if startsWith path "/admin" then
    handleAdminRequest req clk
  else if String.eqb path "/" then
    mret (Response generateHomePage html_headers)
  else
    mret (Response generateHomePage html_headers).

End Worker.

(** ** Measures on JSON values *)

Section JsonMeasures.

Context {NUM : Numbers}.

#[local] Open Scope char_scope.
#[local] Open Scope list_scope.

Abbreviation json := (json NUM).

(** A value is plain when it holds no number and every object in it has
    pairwise distinct keys none of which is an array index: the values for
    which the order of the members is the order of the text. *)
Fixpoint distinct (ks : list string) : bool :=
  match ks with
  | [] => true
  | k :: r => negb (existsb (String.eqb k) r) && distinct r
  end.

Definition ordinary_key (k : string) : bool :=
  match array_index k with
  | Some _ => false
  | None => true
  end.

Fixpoint plain (v : json) : bool :=
  match v with
  | JNum _ => false
  | JArr items => forallb plain items
  | JObj members =>
    forallb (fun kv => plain (snd kv)) members
    && forallb ordinary_key (map fst members)
    && distinct (map fst members)
  | _ => true
  end.

(** Fuel that suffices to read a value back. *)
Fixpoint need (v : json) : nat :=
  match v with
  | JArr items => S (fold_right (fun x n => S (need x + n)) 0 items)
  | JObj members => S (fold_right (fun kv n => S (need (snd kv) + n)) 0 members)
  | _ => 1
  end.

Definition need_items (items : list json) : nat :=
  fold_right (fun x n => S (need x + n)) 0 items.

Definition need_members (members : list (string * json)) : nat :=
  fold_right (fun kv n => S (need (snd kv) + n)) 0 members.

Definition stringify_member (kv : string * json) : list ascii :=
  quote_string (fst kv) ++ ":" :: json_stringify_chars (snd kv).

(** The statement proved by induction on the value. *)
Definition reads_back (v : json) : Prop :=
  plain v = true ->
  forall fuel rest, need v <= fuel ->
    parse_value fuel (json_stringify_chars v ++ rest) = Parsed (v, rest).

End JsonMeasures.

(** ** The operations of the interface, as requests to the worker *)

Section Operations.

Context {NUM : Numbers} {RT : Runtime NUM} {TPL : Templates}.

(** The login form posts the single field [password]. *)
Definition login_request (p : string) : request :=
  {| method := "POST"; pathname := "/admin/auth"; cookie := None;
     text := ""; form := Some [("password", FormText p)] |}.

Definition login (p : string) (clk : clock) : js response :=
  handleRequest (login_request p) clk.

Definition json_request (path : string) (c : option string) (t : string) : request :=
  {| method := "POST"; pathname := path; cookie := c; text := t; form := None |}.

Definition saveData (c : option string) (t : string) (clk : clock) : js response :=
  handleRequest (json_request "/admin/save" c t) clk.

Definition changePassword (c : option string) (t : string) (clk : clock) : js response :=
  handleRequest (json_request "/admin/change-password" c t) clk.

Definition getData (clk : clock) : js response :=
  handleRequest
    {| method := "GET"; pathname := "/data"; cookie := None; text := ""; form := None |}
    clk.

(** A request that carries the session token [tok] in its cookie. *)
Definition request_with_token (tok : string) : request :=
  {| method := "GET"; pathname := "/admin"; cookie := Some ("admin_session=" +:+ tok);
     text := ""; form := None |}.

(** The stored data: a category is a name, a site is the record the
    admin page builds with [sites.push({ name, url, category, icon })]. *)
Record site : Type := {
  site_name : string;
  site_url : string;
  site_category : string;
  site_icon : string
}.

Definition json_of_site (x : site) : json NUM :=
  JObj [("name", JStr (site_name x)); ("url", JStr (site_url x));
        ("category", JStr (site_category x)); ("icon", JStr (site_icon x))].

Definition json_of_categories (names : list string) : list (json NUM) :=
  map JStr names.

Definition json_of_sites (sites : list site) : list (json NUM) :=
  map json_of_site sites.

(** What the client reads in [result.success]. *)
Definition success_flag (r : response) : bool :=
  match json_parse (body r) with
  | Some o => strict_eq (prop o "success") (VJson (JBool true))
  | None => false
  end.

(** The auth-correctness statement for one stored password [P] and one
    submitted password [p]. *)
Definition auth_correct (P p : string) : Prop :=
  forall (st : gmap string string) (clk : clock),
    st !! "admin_password" = Some P ->
    exists r st',
      login p clk st = (Return r, st')
      /\ (success_flag r = true <-> p = P)
      /\ (p <> P -> r = Response (failure_body "密码错误") json_headers /\ st' = st).

(** The number a radix-36 numeral denotes. *)
Definition digit36_value (c : ascii) : N :=
  if is_digit c then (code c - 48)%N else (code c - 87)%N.

Definition radix36_value (l : list ascii) : N :=
  fold_left (fun a c => (a * 36 + digit36_value c)%N) l 0%N.

(** A character list that [trim] leaves alone at its front. *)
Definition unspaced (l : list ascii) : bool :=
  match l with
  | [] => true
  | c :: _ => negb (is_js_space c)
  end.

(** The alphabet of a generated token. *)
Definition base36_string (s : string) : bool :=
  forallb is_base36 (list_ascii_of_string s).

(** A key whose value [getData] cannot decode: absent, or not JSON. *)
Definition undecodable (st : gmap string string) (key : string) : Prop :=
  st !! key = None \/ exists t, st !! key = Some t /\ json_parse (NUM := NUM) t = None.

End Operations.

(** ** Further requests *)

Section Routes.

Context {NUM : Numbers} {RT : Runtime NUM} {TPL : Templates}.

Definition logout (c : option string) (clk : clock) : js response :=
  handleRequest (json_request "/admin/logout" c "") clk.

(** A login request with an arbitrary body: [None] is a body that is not
    form data. *)
Definition auth_request (f : option (list (string * form_entry))) : request :=
  {| method := "POST"; pathname := "/admin/auth"; cookie := None;
     text := ""; form := f |}.

(** A page request that carries the [Cookie] header [h]. *)
Definition request_with_cookie (h : string) : request :=
  {| method := "GET"; pathname := "/admin"; cookie := Some h;
     text := ""; form := None |}.

(** The four routes that reach a handler which writes. *)
Definition is_action (req : request) : bool :=
  String.eqb (method req) "POST"
  && (String.eqb (pathname req) "/admin/auth"
      || String.eqb (pathname req) "/admin/save"
      || String.eqb (pathname req) "/admin/change-password"
      || String.eqb (pathname req) "/admin/logout").

Definition anonymous : session := {| isAuthenticated := false; token := None |}.


Definition home_response : response := Response generateHomePage html_headers.

Definition login_page_response : response :=
  Response (generateAdminPage false) html_headers.

Definition console_response (tok : string) : response :=
  Response (generateAdminPage true)
    [("Content-Type", "text/html; charset=UTF-8");
     ("Set-Cookie", session_cookie tok)].

End Routes.

(** ** The script of the admin page

    The console keeps two variables, [categories] and [sites], two
    arrays loaded from [/data] and posted back by the save button. The
    handlers below are the click handlers of the page, as functions on
    these two variables; what they draw on the page afterwards
    ([updateCategorySelect], [renderCurrentData]) is left out. *)

Section AdminPage.

Context {NUM : Numbers}.

#[local] Open Scope list_scope.

Record admin_state : Type := {
  categories : list (json NUM);
  sites : list (json NUM)
}.

(** What a click does: it updates the variables, or it shows an alert
    and leaves them, or a [TypeError] escapes and leaves them. *)
Inductive reaction : Type :=
  | Done (s : admin_state)
  | Alerted (message : string)
  | Raised.

(** [array.includes(name)] for a string [name]. *)
Definition includes (l : list (json NUM)) (name : string) : bool :=
  existsb (fun x => strict_eq (VJson x) (VStr name)) l.

(** The click handler of [addCategoryBtn], on the text of the input. *)
Definition addCategory (input : string) (s : admin_state) : reaction :=
  let categoryName := trim input in
  if negb (truthy (Some categoryName)) then Alerted "请输入分类名称"
  else if negb (includes (categories s) categoryName) then
    Done {| categories := categories s ++ [JStr categoryName]; sites := sites s |}
  else Alerted "该分类已存在".

(** The markup of the default icon. *)
Definition default_icon : string :=
  "<i class=" +:+ String dquote ("fas fa-globe" +:+ String dquote "></i>").

(** The click handler of [addSiteBtn], on the texts of the three inputs
    and the value of the category selector. *)
Definition addSite (nameInput urlInput category iconInput : string) (s : admin_state)
  : reaction :=
  let name := trim nameInput in
  let url := trim urlInput in
  let icon := if truthy (Some (trim iconInput)) then trim iconInput else default_icon in
  if negb (truthy (Some name)) || negb (truthy (Some url)) || negb (truthy (Some category))
  then Alerted "请填写完整的网站信息"
  else if negb (startsWith url "http://") && negb (startsWith url "https://")
  then Alerted "请输入有效的 URL，以 http:// 或 https:// 开头"
  else
    Done {| categories := categories s;
            sites := sites s ++ [JObj [("name", JStr name); ("url", JStr url);
                                       ("category", JStr category); ("icon", JStr icon)]] |}.

(** [site.category]: reading a property of [null] throws. *)
Definition category_of (site : json NUM) : option (jsval NUM) :=
  match site with
  | JNull => None
  | _ => Some (prop site "category")
  end.

(** [sites.filter(site => site.category !== category)] *)
Fixpoint sites_outside (category : jsval NUM) (l : list (json NUM))
  : option (list (json NUM)) :=
  match l with
  | [] => Some []
  | site :: r =>
    match category_of site with
    | None => None
    | Some c =>
      match sites_outside category r with
      | None => None
      | Some r' => Some (if negb (strict_eq c category) then site :: r' else r')
      end
    end
  end.

(** [array.splice(index, 1)] for an index that is a natural number. *)
Fixpoint splice1 {A : Type} (index : nat) (l : list A) : list A :=
  match l, index with
  | [], _ => []
  | _ :: r, O => r
  | x :: r, S i => x :: splice1 i r
  end.

(** [window.removeCategory(index)]; [confirmed] is the answer to the
    confirmation dialog. *)
Definition removeCategory (confirmed : bool) (index : nat) (s : admin_state) : reaction :=
  if confirmed then
    let category :=
      match nth_error (categories s) index with
      | Some v => VJson v
      | None => VUndefined
      end in
    match sites_outside category (sites s) with
    | None => Raised
    | Some kept => Done {| categories := splice1 index (categories s); sites := kept |}
    end
  else Done s.

(** [window.removeSite(index)] *)
Definition removeSite (confirmed : bool) (index : nat) (s : admin_state) : reaction :=
  if confirmed then
    Done {| categories := categories s; sites := splice1 index (sites s) |}
  else Done s.


(** The clicks of the console and what each one does. *)
Inductive click : Type :=
  | ClickAddCategory (input : string)
  | ClickAddSite (nameInput urlInput category iconInput : string)
  | ClickRemoveCategory (confirmed : bool) (index : nat)
  | ClickRemoveSite (confirmed : bool) (index : nat).

Definition react (k : click) (s : admin_state) : reaction :=
  match k with
  | ClickAddCategory input => addCategory input s
  | ClickAddSite n u c i => addSite n u c i s
  | ClickRemoveCategory confirmed index => removeCategory confirmed index s
  | ClickRemoveSite confirmed index => removeSite confirmed index s
  end.

(** The variables after a click: an alert or an exception leaves them. *)
Definition after (k : click) (s : admin_state) : admin_state :=
  match react k s with
  | Done s' => s'
  | _ => s
  end.

Definition after_all (ks : list click) (s : admin_state) : admin_state :=
  fold_left (fun st k => after k st) ks s.



End AdminPage.

(** ** Tactics *)

Ltac split_match :=
  match goal with
  | H : context [ match ?x with _ => _ end ] |- _ => destruct x eqn:?
  | H : context [ if ?x then _ else _ ] |- _ => destruct x eqn:?
  end.

(** Unfolds the effect combinators of a handler. *)
Ltac run :=
  cbv beta iota delta
    [try_catch mbind js_bind mret js_ret throw kv_get kv_put kv_delete
     js_json_parse request_formData request_json_object VStr VNull
     login_request json_request request_with_token
     method pathname cookie text form].

(** ** Running the model *)

Module Demo.

#[export] Instance numbers : Numbers := literal_numbers.

(** A runtime that stores the text of a primitive and rejects the rest. *)
#[export] Instance runtime : Runtime numbers :=
  {| put_coerce := fun v =>
       match v with
       | VUndefined => Some "undefined"
       | VJson JNull => Some "null"
       | VJson (JBool true) => Some "true"
       | VJson (JBool false) => Some "false"
       | VJson (JNum n) => Some n
       | _ => None
       end |}.

#[export] Instance templates : Templates :=
  {| generateHomePage := "<home>";
     generateAdminPage := fun b => if b then "<console>" else "<login>" |}.

Definition noon : clock :=
  {| random_digits := [10; 11; 35; 0]%N; now := 1700000000000%N |}.

Definition later : clock :=
  {| random_digits := [7; 20; 1]%N; now := 1700000005000%N |}.

(** A store after some use: a password, a session and one bookmark. *)
Definition work : json numbers := JArr [JStr "Work"].

Definition github : json numbers :=
  JArr [JObj [("name", JStr "GitHub"); ("url", JStr "https://github.com");
              ("category", JStr "Work"); ("icon", JStr "")]].

Definition used_store : gmap string string :=
  <["sites" := json_stringify github]>
    (<["categories" := json_stringify work]>
       (<["admin_session" := "abz0loyw3v28"]>
          (<["admin_password" := "abc123"]> ∅))).

(** The body the admin page posts to [/admin/save]. *)
Definition save_body (categories sites : json numbers) : string :=
  json_stringify (JObj [("categories", categories); ("sites", sites)]).

(** The body the admin page posts to [/admin/change-password]. *)
Definition change_fields (current new confirm : json numbers) : json numbers :=
  JObj [("currentPassword", current); ("newPassword", new);
        ("confirmPassword", confirm)].

Definition change_body (current new confirm : json numbers) : string :=
  json_stringify (change_fields current new confirm).

End Demo.


(** The variables of the console before anything is loaded. *)
Definition empty_page {NUM : Numbers} : admin_state :=
  {| categories := []; sites := [] |}.

(** The body the save button posts: [JSON.stringify({ categories, sites })]. *)
Definition page_body {NUM : Numbers} (s : admin_state) : string :=
  json_stringify (JObj [("categories", JArr (categories s)); ("sites", JArr (sites s))]).

(** The variables hold plain values only. *)
Definition plain_page {NUM : Numbers} (s : admin_state) : Prop :=
  forallb plain (categories s) = true /\ forallb plain (sites s) = true.

Module Samples.

Import Demo.

Definition some_clicks : list click :=
  [ClickAddCategory " Work "; ClickAddCategory "Play";
   ClickAddSite " GitHub " "https://github.com" "Work" "";
   ClickAddSite "Chess" "http://chess.example" "Play" "fas fa-chess";
   ClickAddCategory "Work";
   ClickRemoveCategory true 1].

Definition two_categories : admin_state :=
  {| categories := [JStr "Work"; JStr "Play"];
     sites := [JObj [("name", JStr "GitHub"); ("url", JStr "https://github.com");
                     ("category", JStr "Work"); ("icon", JStr "")];
               JObj [("name", JStr "Chess"); ("url", JStr "http://chess.example");
                     ("category", JStr "Play"); ("icon", JStr "")]] |}.

Definition only_play : admin_state :=
  {| categories := [JStr "Play"];
     sites := [JObj [("name", JStr "Chess"); ("url", JStr "http://chess.example");
                     ("category", JStr "Play"); ("icon", JStr "")]] |}.

Definition wrong_verb : request :=
  {| method := "GET"; pathname := "/admin/save"; cookie := None;
     text := save_body (JArr []) (JArr []); form := None |}.

Definition post_data : request :=
  {| method := "POST"; pathname := "/data"; cookie := None; text := ""; form := None |}.

End Samples.

(** * Properties of the JSON layer *)

Section JsonFacts.

Context {NUM : Numbers}.

#[local] Open Scope char_scope.
#[local] Open Scope list_scope.

Abbreviation json := (json NUM).

(** Induction over a value and, through [Forall], over its children. *)
Lemma json_nested_ind (P : json -> Prop) :
  P JNull -> (forall b, P (JBool b)) -> (forall n, P (JNum n)) ->
  (forall s, P (JStr s)) ->
  (forall items, Forall P items -> P (JArr items)) ->
  (forall members, Forall (fun kv => P (snd kv)) members -> P (JObj members)) ->
  forall v, P v.
Proof.
  intros Hnull Hbool Hnum Hstr Harr Hobj.
  fix IH 1.
  intros [ | b | n | s | items | members ].
  - exact Hnull.
  - apply Hbool.
  - apply Hnum.
  - apply Hstr.
  - apply Harr. induction items as [ | x r IHr ]; constructor.
    + apply IH.
    + exact IHr.
  - apply Hobj. induction members as [ | [k x] r IHr ]; constructor.
    + apply IH.
    + exact IHr.
Qed.

(** *** Reading back what [JSON.stringify] wrote *)

Lemma escape_char_parse (c : ascii) (tl : list ascii) :
  parse_chars (escape_char c ++ tl) = prepend [c] (parse_chars tl).
Proof.
  destruct c as [[] [] [] [] [] [] [] []]; reflexivity.
Qed.

Lemma escaped_parse (s rest : list ascii) :
  parse_chars (flat_map escape_char s ++ dquote :: rest) = Some (s, rest).
Proof.
  induction s as [ | c s IH ]; simpl.
  - reflexivity.
  - rewrite <- app_assoc, escape_char_parse, IH. reflexivity.
Qed.

Lemma quote_parse (s rest : list ascii) :
  exists tl, quote s ++ rest = dquote :: tl /\ parse_chars tl = Some (s, rest).
Proof.
  exists (flat_map escape_char s ++ dquote :: rest). split.
  - unfold quote. simpl. rewrite <- app_assoc. reflexivity.
  - apply escaped_parse.
Qed.

Lemma parse_elements_more (f : nat) (v : json) (l tl : list ascii) :
  parse_value f l = Parsed (v, "," :: tl) ->
  parse_elements (S f) l = lift (cons v) (parse_elements f tl).
Proof. intros H. cbn [parse_elements]. rewrite H. reflexivity. Qed.

Lemma parse_elements_last (f : nat) (v : json) (l tl : list ascii) :
  parse_value f l = Parsed (v, "]" :: tl) ->
  parse_elements (S f) l = Parsed ([v], tl).
Proof. intros H. cbn [parse_elements]. rewrite H. reflexivity. Qed.

Lemma parse_members_key (f : nat) (k : string) (tl : list ascii) :
  parse_members (S f) (quote_string k ++ ":" :: tl) =
  match parse_value f tl with
  | Parsed (v, r2) =>
    match skip_ws r2 with
    | [] => Malformed
    | c :: r3 =>
      if Ascii.eqb c "," then lift (cons (k, v)) (parse_members f r3)
      else if Ascii.eqb c "}" then Parsed ([(k, v)], r3)
      else Malformed
    end
  | Malformed => Malformed
  | Starved => Starved
  end.
Proof.
  unfold quote_string.
  destruct (quote_parse (list_ascii_of_string k) (":" :: tl)) as (body & -> & Hbody).
  cbn [parse_members]. 
  change (strip_prefix [dquote] (skip_ws (dquote :: body))) with (Some body).
  cbv beta iota. rewrite Hbody.
  change (strip_prefix [":"] (skip_ws (":" :: tl))) with (Some tl).
  cbv beta iota. rewrite string_of_list_ascii_of_string. reflexivity.
Qed.

Lemma parse_members_more (f : nat) (k : string) (v : json) (l tl : list ascii) :
  parse_value f l = Parsed (v, "," :: tl) ->
  parse_members (S f) (quote_string k ++ ":" :: l) =
  lift (cons (k, v)) (parse_members f tl).
Proof. intros H. rewrite parse_members_key, H. reflexivity. Qed.

Lemma parse_members_last (f : nat) (k : string) (v : json) (l tl : list ascii) :
  parse_value f l = Parsed (v, "}" :: tl) ->
  parse_members (S f) (quote_string k ++ ":" :: l) = Parsed ([(k, v)], tl).
Proof. intros H. rewrite parse_members_key, H. reflexivity. Qed.

Lemma parse_string_literal (f : nat) (s : string) (rest : list ascii) :
  parse_value (S f) (quote_string s ++ rest) = Parsed (JStr s, rest).
Proof.
  unfold quote_string.
  destruct (quote_parse (list_ascii_of_string s) rest) as (body & -> & Hbody).
  change (parse_value (S f) (dquote :: body)) with
    (match parse_chars body with
     | Some (s0, r') => Parsed (JStr (string_of_list_ascii s0), r')
     | None => Malformed
     end).
  rewrite Hbody, string_of_list_ascii_of_string. reflexivity.
Qed.

Lemma open_array (f : nat) (v : json) (tl : list ascii) :
  plain v = true ->
  parse_value (S f) ("[" :: json_stringify_chars v ++ tl) =
  lift JArr (parse_elements f (json_stringify_chars v ++ tl)).
Proof.
  destruct v as [ | [] | | | | ]; intros Hp; try discriminate Hp; reflexivity.
Qed.

Lemma open_object (f : nat) (k : string) (tl : list ascii) :
  parse_value (S f) ("{" :: quote_string k ++ tl) =
  lift (fun kvs => JObj (obj_of_members kvs)) (parse_members f (quote_string k ++ tl)).
Proof. reflexivity. Qed.

(** Members with distinct ordinary keys are stored in the order read. *)
Lemma distinct_middle (l1 l2 : list string) (k : string) :
  distinct (l1 ++ k :: l2) = true -> existsb (fun x => String.eqb x k) l1 = false.
Proof.
  induction l1 as [ | a l1 IH ]; simpl; intros H.
  - reflexivity.
  - apply andb_prop in H as [Ha Hd].
    apply negb_true_iff in Ha. rewrite existsb_app in Ha.
    apply orb_false_iff in Ha as [_ Ha]. simpl in Ha.
    apply orb_false_iff in Ha as [Ha _].
    rewrite Ha, (IH Hd). reflexivity.
Qed.

Lemma has_key_fst (k : string) (kvs : list (string * json)) :
  has_key k kvs = existsb (fun x => String.eqb x k) (map fst kvs).
Proof.
  unfold has_key. induction kvs as [ | kv kvs IH ]; simpl; congruence.
Qed.

Lemma obj_set_fresh (acc kvs : list (string * json)) :
  forallb ordinary_key (map fst kvs) = true ->
  distinct (map fst (acc ++ kvs)) = true ->
  fold_left obj_set kvs acc = acc ++ kvs.
Proof.
  revert acc. induction kvs as [ | [k v] kvs IH ]; intros acc Hord Hdis; simpl.
  - rewrite app_nil_r. reflexivity.
  - simpl in Hord. apply andb_prop in Hord as [Hk Hord].
    assert (Hfresh : has_key k acc = false).
    { rewrite has_key_fst. rewrite map_app in Hdis. simpl in Hdis.
      apply distinct_middle in Hdis. exact Hdis. }
    rewrite Hfresh. unfold ordinary_key in Hk.
    destruct (array_index k); [ discriminate Hk | ].
    rewrite IH.
    + rewrite <- app_assoc. reflexivity.
    + exact Hord.
    + rewrite <- app_assoc. exact Hdis.
Qed.

Lemma obj_of_members_plain (kvs : list (string * json)) :
  forallb ordinary_key (map fst kvs) = true ->
  distinct (map fst kvs) = true ->
  obj_of_members kvs = kvs.
Proof.
  intros Hord Hdis. unfold obj_of_members.
  rewrite (obj_set_fresh [] kvs Hord Hdis). reflexivity.
Qed.

Lemma elements_read_back (items : list json) :
  Forall reads_back items -> forallb plain items = true -> items <> [] ->
  forall fuel rest, need_items items <= fuel ->
    parse_elements fuel (join "," (map json_stringify_chars items) ++ "]" :: rest)
    = Parsed (items, rest).
Proof.
  induction 1 as [ | v items Hv Hitems IH ]; intros Hp Hne fuel rest Hfuel.
  - contradiction.
  - simpl in Hp. apply andb_prop in Hp as [Hpv Hpi].
    unfold need_items in Hfuel. simpl in Hfuel. fold (need_items items) in Hfuel.
    destruct fuel as [ | f ]; [ lia | ].
    destruct items as [ | w items ].
    + apply parse_elements_last. apply (Hv Hpv). lia.
    + change (join "," (map json_stringify_chars (v :: w :: items)))
        with (json_stringify_chars v ++ "," :: join "," (map json_stringify_chars (w :: items))).
      rewrite <- app_assoc, <- app_comm_cons.
      erewrite parse_elements_more by (apply (Hv Hpv); lia).
      rewrite (IH Hpi) by (discriminate || lia).
      reflexivity.
Qed.

Lemma members_read_back (members : list (string * json)) :
  Forall (fun kv => reads_back (snd kv)) members ->
  forallb (fun kv => plain (snd kv)) members = true -> members <> [] ->
  forall fuel rest, need_members members <= fuel ->
    parse_members fuel (join "," (map stringify_member members) ++ "}" :: rest)
    = Parsed (members, rest).
Proof.
  induction 1 as [ | [k v] members Hv Hmembers IH ]; intros Hp Hne fuel rest Hfuel.
  - contradiction.
  - simpl in Hp, Hv. apply andb_prop in Hp as [Hpv Hpm].
    unfold need_members in Hfuel. simpl in Hfuel. fold (need_members members) in Hfuel.
    destruct fuel as [ | f ]; [ lia | ].
    destruct members as [ | w members ].
    + change (join "," (map stringify_member [(k, v)]))
        with (quote_string k ++ ":" :: json_stringify_chars v).
      rewrite <- app_assoc, <- app_comm_cons.
      apply parse_members_last. apply (Hv Hpv). lia.
    + change (join "," (map stringify_member ((k, v) :: w :: members)))
        with ((quote_string k ++ ":" :: json_stringify_chars v)
              ++ "," :: join "," (map stringify_member (w :: members))).
      rewrite <- !app_assoc, <- !app_comm_cons.
      erewrite parse_members_more by (apply (Hv Hpv); lia).
      rewrite (IH Hpm) by (discriminate || lia).
      reflexivity.
Qed.

Lemma open_array_items (f : nat) (v : json) (items : list json) (tl : list ascii) :
  plain v = true ->
  parse_value (S f) ("[" :: join "," (map json_stringify_chars (v :: items)) ++ tl) =
  lift JArr (parse_elements f (join "," (map json_stringify_chars (v :: items)) ++ tl)).
Proof.
  intros Hp. destruct items as [ | w items ].
  - apply open_array, Hp.
  - change (join "," (map json_stringify_chars (v :: w :: items)))
      with (json_stringify_chars v ++ "," :: join "," (map json_stringify_chars (w :: items))).
    rewrite <- app_assoc. apply open_array, Hp.
Qed.

Lemma open_object_members (f : nat) (kv : string * json)
  (members : list (string * json)) (tl : list ascii) :
  parse_value (S f) ("{" :: join "," (map stringify_member (kv :: members)) ++ tl) =
  lift (fun kvs => JObj (obj_of_members kvs))
    (parse_members f (join "," (map stringify_member (kv :: members)) ++ tl)).
Proof.
  destruct kv as [k v]. destruct members as [ | w members ].
  - change (join "," (map stringify_member [(k, v)]))
      with (quote_string k ++ ":" :: json_stringify_chars v).
    rewrite <- app_assoc. apply open_object.
  - change (join "," (map stringify_member ((k, v) :: w :: members)))
      with ((quote_string k ++ ":" :: json_stringify_chars v)
            ++ "," :: join "," (map stringify_member (w :: members))).
    rewrite <- !app_assoc. apply open_object.
Qed.

(** Every plain value is read back from its text, whatever follows it,
    as soon as the fuel covers [need]. *)
Lemma stringify_reads_back (v : json) : reads_back v.
Proof.
  induction v as [ | b | n | s | items IH | members IH ] using json_nested_ind;
    intros Hp fuel rest Hfuel; simpl in Hfuel;
    (destruct fuel as [ | f ]; [ lia | ]).
  - reflexivity.
  - destruct b; reflexivity.
  - discriminate Hp.
  - apply parse_string_literal.
  - fold (need_items items) in Hfuel. simpl in Hp.
    change (json_stringify_chars (JArr items))
      with ("[" :: join "," (map json_stringify_chars items) ++ ["]"]).
    rewrite <- app_comm_cons, <- app_assoc. simpl app at 2.
    destruct items as [ | v items ].
    + reflexivity.
    + rewrite open_array_items by (simpl in Hp; apply andb_prop in Hp; tauto).
      rewrite (elements_read_back _ IH Hp) by (discriminate || lia).
      reflexivity.
  - fold (need_members members) in Hfuel. simpl in Hp.
    apply andb_prop in Hp as [Hp Hdis]. apply andb_prop in Hp as [Hp Hord].
    change (json_stringify_chars (JObj members))
      with ("{" :: join "," (map stringify_member members) ++ ["}"]).
    rewrite <- app_comm_cons, <- app_assoc. simpl app at 2.
    destruct members as [ | kv members ].
    + reflexivity.
    + rewrite open_object_members.
      rewrite (members_read_back _ IH Hp) by (discriminate || lia).
      cbn [lift]. rewrite obj_of_members_plain by assumption.
      reflexivity.
Qed.

Lemma length_join_map {A : Type} (g : A -> list ascii) (h : A -> nat) (xs : list A) :
  Forall (fun x => h x <= length (g x)) xs ->
  fold_right (fun x n => S (h x + n)) 0 xs <= S (length (join "," (map g xs))).
Proof.
  induction 1 as [ | x xs Hx Hxs IH ].
  - simpl. lia.
  - cbn [fold_right]. destruct xs as [ | y xs ].
    + simpl. lia.
    + change (join "," (map g (x :: y :: xs)))
        with (g x ++ "," :: join "," (map g (y :: xs))).
      rewrite length_app. cbn [length]. lia.
Qed.

Lemma need_le_length (v : json) :
  plain v = true -> need v <= length (json_stringify_chars v).
Proof.
  induction v as [ | b | n | s | items IH | members IH ] using json_nested_ind;
    intros Hp.
  - simpl. lia.
  - destruct b; simpl; lia.
  - discriminate Hp.
  - simpl. unfold quote_string, quote. simpl. lia.
  - simpl in Hp.
    change (json_stringify_chars (JArr items))
      with ("[" :: join "," (map json_stringify_chars items) ++ ["]"]).
    simpl need. simpl length. rewrite length_app. simpl length.
    pose proof (length_join_map json_stringify_chars need items) as Hlen.
    assert (Hall : Forall (fun x => need x <= length (json_stringify_chars x)) items).
    { clear Hlen. induction IH as [ | x xs Hx Hxs IHxs ]; constructor.
      - apply Hx. simpl in Hp. apply andb_prop in Hp. tauto.
      - apply IHxs. simpl in Hp. apply andb_prop in Hp. tauto. }
    specialize (Hlen Hall). lia.
  - simpl in Hp. apply andb_prop in Hp as [Hp _]. apply andb_prop in Hp as [Hp _].
    change (json_stringify_chars (JObj members))
      with ("{" :: join "," (map stringify_member members) ++ ["}"]).
    simpl need. simpl length. rewrite length_app. simpl length.
    pose proof (length_join_map stringify_member (fun kv => need (snd kv)) members) as Hlen.
    assert (Hall : Forall (fun kv => need (snd kv) <= length (stringify_member kv)) members).
    { clear Hlen. induction IH as [ | x xs Hx Hxs IHxs ]; constructor.
      - unfold stringify_member. rewrite length_app. simpl length.
        simpl in Hp. apply andb_prop in Hp. specialize (Hx (proj1 Hp)). lia.
      - apply IHxs. simpl in Hp. apply andb_prop in Hp. tauto. }
    specialize (Hlen Hall). lia.
Qed.

Lemma length_string_of_list_ascii (l : list ascii) :
  String.length (string_of_list_ascii l) = length l.
Proof. induction l as [ | c l IH ]; simpl; congruence. Qed.

(** [JSON.parse(JSON.stringify(v))] is [v] for a plain value. *)
Lemma json_parse_stringify (v : json) :
  plain v = true -> json_parse (json_stringify v) = Some v.
Proof.
  intros Hp. unfold json_parse, json_parse_with, json_stringify.
  rewrite list_ascii_of_string_of_list_ascii, length_string_of_list_ascii.
  rewrite <- (app_nil_r (json_stringify_chars v)) at 2.
  rewrite (stringify_reads_back v Hp).
  - reflexivity.
  - pose proof (need_le_length v Hp). lia.
Qed.

(** *** The fuel of [json_parse] is never exhausted *)

Lemma skip_ws_length (l : list ascii) : length (skip_ws l) <= length l.
Proof.
  induction l as [ | c l IH ]; simpl; [ lia | ].
  destruct (is_json_ws c); simpl; lia.
Qed.

Lemma strip_prefix_length (lit l r : list ascii) :
  strip_prefix lit l = Some r -> length l = length lit + length r.
Proof.
  revert l. induction lit as [ | a lit IH ]; intros [ | b l ]; simpl; intros H;
    try discriminate H.
  - injection H as <-. reflexivity.
  - injection H as <-. reflexivity.
  - destruct (Ascii.eqb a b); [ | discriminate H ]. rewrite (IH _ H). reflexivity.
Qed.

Lemma span_digits_length (l ds r : list ascii) :
  span_digits l = (ds, r) -> length r <= length l.
Proof.
  revert ds r. induction l as [ | c l IH ]; simpl; intros ds r H.
  - injection H as <- <-. simpl. lia.
  - destruct (is_digit c).
    + destruct (span_digits l) as [ds' r'] eqn:E. injection H as <- <-.
      specialize (IH _ _ eq_refl). lia.
    + injection H as <- <-. simpl. lia.
Qed.

Lemma prepend_some (cs : list ascii) (o : option (list ascii * list ascii))
  (s r : list ascii) :
  prepend cs o = Some (s, r) -> exists s', o = Some (s', r).
Proof.
  destruct o as [ [s' r'] | ]; simpl; intros H; [ | discriminate H ].
  injection H as <- <-. eauto.
Qed.

Lemma parse_chars_consumes (l s r : list ascii) :
  parse_chars l = Some (s, r) -> length r < length l.
Proof.
  remember (length l) as n eqn:En.
  assert (Hn : length l <= n) by lia. clear En.
  revert l s r Hn. induction n as [ | n IH ]; intros l s r Hn H.
  - destruct l; [ discriminate H | simpl in Hn; lia ].
  - destruct l as [ | c l ]; [ discriminate H | ]. simpl in Hn.
    cbn [parse_chars] in H.
    repeat (split_match; try discriminate H);
      try (injection H as <- <-; simpl; lia);
      apply prepend_some in H as [s' H];
      apply IH in H; simpl in *; lia.
Qed.

Lemma lex_digits_length (pre l lit r : list ascii) :
  lex_digits pre l = Some (lit, r) -> length r <= length l.
Proof.
  unfold lex_digits. destruct (span_digits l) as [ds r'] eqn:E.
  apply span_digits_length in E.
  destruct ds; intros H; [ discriminate H | ]. injection H as <- <-. exact E.
Qed.

Lemma lex_int_consumes (l lit r : list ascii) :
  lex_int l = Some (lit, r) -> length r < length l.
Proof.
  destruct l as [ | c l ]; simpl; intros H; [ discriminate H | ].
  destruct (Ascii.eqb c "0").
  - injection H as <- <-. lia.
  - destruct (is_digit c); [ | discriminate H ].
    destruct (span_digits l) as [ds r'] eqn:E. apply span_digits_length in E.
    injection H as <- <-. lia.
Qed.

Lemma lex_frac_length (l lit r : list ascii) :
  lex_frac l = Some (lit, r) -> length r <= length l.
Proof.
  destruct l as [ | c l ]; simpl; intros H.
  - injection H as <- <-. simpl. lia.
  - destruct (Ascii.eqb c ".").
    + apply lex_digits_length in H. lia.
    + injection H as <- <-. simpl. lia.
Qed.

Lemma lex_exp_length (l lit r : list ascii) :
  lex_exp l = Some (lit, r) -> length r <= length l.
Proof.
  destruct l as [ | c l ]; simpl; intros H.
  - injection H as <- <-. simpl. lia.
  - destruct (Ascii.eqb c "e" || Ascii.eqb c "E").
    + destruct l as [ | s l ]; [ discriminate H | ].
      destruct (Ascii.eqb s "+" || Ascii.eqb s "-");
        apply lex_digits_length in H; simpl in *; lia.
    + injection H as <- <-. simpl. lia.
Qed.

Lemma lex_sign_length (l sign r : list ascii) :
  lex_sign l = (sign, r) -> length r <= length l.
Proof.
  destruct l as [ | c l ]; simpl; intros H.
  - injection H as <- <-. simpl. lia.
  - destruct (Ascii.eqb c "-"); injection H as <- <-; simpl; lia.
Qed.

Lemma lex_number_consumes (l lit r : list ascii) :
  lex_number l = Some (lit, r) -> length r < length l.
Proof.
  unfold lex_number. intros H.
  destruct (lex_sign l) as [sign l0] eqn:E0. apply lex_sign_length in E0.
  destruct (lex_int l0) as [ [i l1] | ] eqn:E1; [ | discriminate H ].
  apply lex_int_consumes in E1.
  destruct (lex_frac l1) as [ [f l2] | ] eqn:E2; [ | discriminate H ].
  apply lex_frac_length in E2.
  destruct (lex_exp l2) as [ [e l3] | ] eqn:E3; [ | discriminate H ].
  apply lex_exp_length in E3.
  injection H as <- <-. lia.
Qed.

Lemma lift_parsed {A B : Type} (g : A -> B) (o : outcome (A * list ascii))
  (b : B) (r : list ascii) :
  lift g o = Parsed (b, r) -> exists a, o = Parsed (a, r).
Proof.
  destruct o as [ [a r'] | | ]; simpl; intros H; try discriminate H.
  injection H as <- <-. eauto.
Qed.

(** A successful parse consumes at least one character. *)
Lemma parse_consumes (f : nat) :
  (forall l v r, parse_value f l = Parsed (v, r) -> length r < length l)
  /\ (forall l vs r, parse_elements f l = Parsed (vs, r) -> length r < length l)
  /\ (forall l kvs r, parse_members f l = Parsed (kvs, r) -> length r < length l).
Proof.
  induction f as [ | f (IHv & IHe & IHm) ].
  - repeat split; intros; discriminate.
  - repeat split.
    + intros l v r H. cbn [parse_value] in H. unfold keyword in H.
      pose proof (skip_ws_length l) as Hws.
      destruct (skip_ws l) as [ | c t ] eqn:El; [ discriminate H | ].
      repeat (split_match; try discriminate H);
        repeat match goal with
               | E : Parsed _ = Parsed _ |- _ => injection E as <- <-
               | E : lift _ _ = Parsed _ |- _ => apply lift_parsed in E as [? E]
               | E : parse_elements f _ = Parsed _ |- _ => apply IHe in E
               | E : parse_members f _ = Parsed _ |- _ => apply IHm in E
               | E : strip_prefix _ _ = Some _ |- _ => apply strip_prefix_length in E
               | E : parse_chars _ = Some _ |- _ => apply parse_chars_consumes in E
               | E : lex_number _ = Some _ |- _ => apply lex_number_consumes in E
               end;
        try (pose proof (skip_ws_length t)); simpl in *; lia.
    + intros l vs r H. cbn [parse_elements] in H.
      destruct (parse_value f l) as [ [v r0] | | ] eqn:Ev; try discriminate H.
      apply IHv in Ev. pose proof (skip_ws_length r0) as Hws.
      destruct (skip_ws r0) as [ | c t ] eqn:El; [ discriminate H | ].
      repeat (split_match; try discriminate H);
        repeat match goal with
               | E : Parsed _ = Parsed _ |- _ => injection E as <- <-
               | E : lift _ _ = Parsed _ |- _ => apply lift_parsed in E as [? E]
               | E : parse_elements f _ = Parsed _ |- _ => apply IHe in E
               end;
        simpl in *; lia.
    + intros l kvs r H. cbn [parse_members] in H.
      pose proof (skip_ws_length l) as Hws.
      destruct (strip_prefix [dquote] (skip_ws l)) as [ r0 | ] eqn:E0;
        [ | discriminate H ].
      apply strip_prefix_length in E0.
      destruct (parse_chars r0) as [ [k r1] | ] eqn:E1; [ | discriminate H ].
      apply parse_chars_consumes in E1.
      pose proof (skip_ws_length r1) as Hws1.
      destruct (strip_prefix [":"] (skip_ws r1)) as [ r2 | ] eqn:E2;
        [ | discriminate H ].
      apply strip_prefix_length in E2.
      destruct (parse_value f r2) as [ [v r3] | | ] eqn:Ev; try discriminate H.
      apply IHv in Ev. pose proof (skip_ws_length r3) as Hws3.
      destruct (skip_ws r3) as [ | c t ] eqn:El; [ discriminate H | ].
      repeat (split_match; try discriminate H);
        repeat match goal with
               | E : Parsed _ = Parsed _ |- _ => injection E as <- <-
               | E : lift _ _ = Parsed _ |- _ => apply lift_parsed in E as [? E]
               | E : parse_members f _ = Parsed _ |- _ => apply IHm in E
               end;
        simpl in *; lia.
Qed.

Lemma lift_starved {A B : Type} (g : A -> B) (o : outcome (A * list ascii)) :
  lift g o = Starved -> o = Starved.
Proof. destruct o as [ [a r] | | ]; simpl; congruence. Qed.

Lemma parse_not_starved (f : nat) :
  (forall l, 2 * length l < f -> parse_value f l <> Starved)
  /\ (forall l, 2 * length l + 1 < f -> parse_elements f l <> Starved)
  /\ (forall l, 2 * length l + 1 < f -> parse_members f l <> Starved).
Proof.
  induction f as [ | f (IHv & IHe & IHm) ].
  - repeat split; intros l Hl; lia.
  - repeat split.
    + intros l Hl H. cbn [parse_value] in H. unfold keyword in H.
      pose proof (skip_ws_length l) as Hws.
      destruct (skip_ws l) as [ | c t ] eqn:El; [ discriminate H | ].
      pose proof (skip_ws_length t) as Hwt. simpl in Hws.
      repeat (split_match; try discriminate H);
        apply lift_starved in H;
        [ apply (IHe t) in H | apply (IHm t) in H ]; (lia || exact H).
    + intros l Hl H. cbn [parse_elements] in H.
      destruct (parse_value f l) as [ [v r0] | | ] eqn:Ev; try discriminate H.
      * apply (proj1 (parse_consumes f)) in Ev.
        pose proof (skip_ws_length r0) as Hws.
        destruct (skip_ws r0) as [ | c t ] eqn:El; [ discriminate H | ].
        simpl in Hws.
        repeat (split_match; try discriminate H).
        apply lift_starved in H. apply (IHe t) in H; (lia || exact H).
      * apply (IHv l) in Ev; (lia || exact Ev).
    + intros l Hl H. cbn [parse_members] in H.
      pose proof (skip_ws_length l) as Hws.
      destruct (strip_prefix [dquote] (skip_ws l)) as [ r0 | ] eqn:E0;
        [ | discriminate H ].
      apply strip_prefix_length in E0.
      destruct (parse_chars r0) as [ [k r1] | ] eqn:E1; [ | discriminate H ].
      apply parse_chars_consumes in E1.
      pose proof (skip_ws_length r1) as Hws1.
      destruct (strip_prefix [":"] (skip_ws r1)) as [ r2 | ] eqn:E2;
        [ | discriminate H ].
      apply strip_prefix_length in E2. simpl in E0, E2.
      destruct (parse_value f r2) as [ [v r3] | | ] eqn:Ev; try discriminate H.
      * apply (proj1 (parse_consumes f)) in Ev.
        pose proof (skip_ws_length r3) as Hws3.
        destruct (skip_ws r3) as [ | c t ] eqn:El; [ discriminate H | ].
        simpl in Hws3.
        repeat (split_match; try discriminate H).
        apply lift_starved in H. apply (IHm t) in H; (lia || exact H).
      * apply (IHv r2) in Ev; (lia || exact Ev).
Qed.

(** [json_parse] answers [None] only for a text that is not JSON. *)
Lemma json_parse_fuel (text : string) :
  json_parse_with (2 * String.length text + 2) text <> Starved.
Proof.
  unfold json_parse_with. intros H.
  destruct (parse_value _ _) as [ [v r] | | ] eqn:E; try discriminate H.
  - destruct (skip_ws r); discriminate H.
  - apply (proj1 (parse_not_starved _)) in E; [ exact E | ].
    rewrite <- (length_string_of_list_ascii (list_ascii_of_string text)).
    rewrite string_of_list_ascii_of_string. lia.
Qed.

Lemma json_parse_none (text : string) :
  json_parse text = None <->
  json_parse_with (2 * String.length text + 2) text = Malformed.
Proof.
  unfold json_parse. pose proof (json_parse_fuel text) as Hfuel.
  destruct (json_parse_with _ text); split; congruence.
Qed.

End JsonFacts.

(** * Properties of the string functions *)

Section StringFacts.

#[local] Open Scope list_scope.

Lemma list_ascii_of_string_app (a b : string) :
  list_ascii_of_string (a +:+ b) = list_ascii_of_string a ++ list_ascii_of_string b.
Proof.
  induction a as [ | c a IH ]; simpl; [ reflexivity | ].
  rewrite IH. reflexivity.
Qed.

Lemma split_chars_none (sep : ascii) (l : list ascii) :
  forallb (fun c => negb (Ascii.eqb c sep)) l = true -> split_chars sep l = [l].
Proof.
  induction l as [ | c l IH ]; simpl; intros H.
  - reflexivity.
  - apply andb_prop in H as [Hc Hl]. apply negb_true_iff in Hc.
    rewrite Hc, (IH Hl). reflexivity.
Qed.

Lemma split_chars_first (sep : ascii) (l1 l2 : list ascii) :
  forallb (fun c => negb (Ascii.eqb c sep)) l1 = true ->
  exists t, split_chars sep (l1 ++ sep :: l2) = l1 :: split_chars sep l2
            /\ split_chars sep l2 = t.
Proof.
  intros H. eexists. split; [ | reflexivity ].
  induction l1 as [ | c l1 IH ]; simpl.
  - rewrite Ascii.eqb_refl. reflexivity.
  - simpl in H. apply andb_prop in H as [Hc Hl]. apply negb_true_iff in Hc.
    rewrite Hc, (IH Hl). reflexivity.
Qed.

Lemma trim_start_unspaced (l : list ascii) :
  unspaced l = true -> trim_start l = l.
Proof.
  destruct l as [ | c l ]; simpl; intros H; [ reflexivity | ].
  apply negb_true_iff in H. rewrite H. reflexivity.
Qed.

Lemma trim_unspaced (l : list ascii) :
  unspaced l = true -> unspaced (rev l) = true ->
  trim (string_of_list_ascii l) = string_of_list_ascii l.
Proof.
  intros H1 H2. unfold trim. rewrite list_ascii_of_string_of_list_ascii.
  rewrite (trim_start_unspaced l H1), (trim_start_unspaced _ H2), rev_involutive.
  reflexivity.
Qed.

Lemma base36_not_space (c : ascii) : is_base36 c = true -> is_js_space c = false.
Proof. destruct c as [[] [] [] [] [] [] [] []]; intros H; try discriminate H; reflexivity. Qed.

Lemma base36_not_sep (c : ascii) :
  is_base36 c = true ->
  negb (Ascii.eqb c ";") = true /\ negb (Ascii.eqb c "=") = true.
Proof.
  destruct c as [[] [] [] [] [] [] [] []]; intros H; try discriminate H;
    split; reflexivity.
Qed.

Lemma forallb_impl_true {A : Type} (P Q : A -> bool) (l : list A) :
  (forall x, P x = true -> Q x = true) -> forallb P l = true -> forallb Q l = true.
Proof.
  intros HPQ. induction l as [ | x l IH ]; simpl; intros H; [ reflexivity | ].
  apply andb_prop in H as [Hx Hl]. rewrite (HPQ x Hx), (IH Hl). reflexivity.
Qed.

Lemma forallb_rev_true {A : Type} (P : A -> bool) (l : list A) :
  forallb P l = true -> forallb P (rev l) = true.
Proof.
  induction l as [ | x l IH ]; simpl; intros H; [ reflexivity | ].
  apply andb_prop in H as [Hx Hl]. rewrite forallb_app, (IH Hl). simpl.
  rewrite Hx. reflexivity.
Qed.

(** A cookie header that holds just [admin_session=tok], for a token
    over the base-36 alphabet, is split into that name and that token. *)
Lemma session_header_cookies (tok : string) :
  base36_string tok = true ->
  map trim (split ";" ("admin_session=" +:+ tok)) = ["admin_session=" +:+ tok].
Proof.
  unfold base36_string. intros H.
  set (l := list_ascii_of_string tok) in *.
  assert (Hl : list_ascii_of_string ("admin_session=" +:+ tok)
               = list_ascii_of_string "admin_session=" ++ l)
    by apply list_ascii_of_string_app.
  unfold split. rewrite Hl, split_chars_none.
  - cbn [map]. rewrite trim_unspaced.
    + rewrite <- Hl, string_of_list_ascii_of_string. reflexivity.
    + reflexivity.
    + rewrite rev_app_distr. destruct (rev l) as [ | x r ] eqn:Er; [ reflexivity | ].
      pose proof (forallb_rev_true _ _ H) as Hr. rewrite Er in Hr.
      simpl in Hr. apply andb_prop in Hr as [Hx _].
      simpl. rewrite (base36_not_space x Hx). reflexivity.
  - rewrite forallb_app. apply andb_true_intro. split; [ reflexivity | ].
    revert H. apply forallb_impl_true. intros x Hx. apply base36_not_sep, Hx.
Qed.

Lemma session_cookie_token (tok : string) :
  base36_string tok = true ->
  nth_error (split "=" ("admin_session=" +:+ tok)) 1 = Some tok.
Proof.
  unfold base36_string. intros H. unfold split.
  rewrite list_ascii_of_string_app.
  change (list_ascii_of_string "admin_session=")
    with (list_ascii_of_string "admin_session" ++ ["="%char]).
  rewrite <- app_assoc. cbn [app].
  destruct (split_chars_first "=" (list_ascii_of_string "admin_session")
              (list_ascii_of_string tok) eq_refl) as (t & -> & _).
  rewrite split_chars_none.
  - cbn [map nth_error]. rewrite string_of_list_ascii_of_string. reflexivity.
  - revert H. apply forallb_impl_true. intros x Hx. apply base36_not_sep, Hx.
Qed.

Lemma startsWith_append (prefix s : string) : startsWith (prefix +:+ s) prefix = true.
Proof.
  unfold startsWith. induction prefix as [ | c prefix IH ]; simpl.
  - destruct s; reflexivity.
  - destruct (ascii_dec c c); [ exact IH | contradiction ].
Qed.

Lemma digit36_base36 (n : N) : (n < 36)%N -> is_base36 (digit36 n) = true.
Proof.
  intros H. unfold digit36, is_base36, is_digit, is_lower, code.
  destruct (N.ltb_spec n 10).
  - rewrite N_ascii_embedding by lia. apply orb_true_iff. left.
    apply andb_true_iff. split; apply N.leb_le; lia.
  - rewrite N_ascii_embedding by lia. apply orb_true_iff. right.
    apply andb_true_iff. split; apply N.leb_le; lia.
Qed.

Lemma digits36_base36 (l : list N) :
  forallb is_base36 (map (fun d => digit36 (d mod 36)) l) = true.
Proof.
  induction l as [ | x l IH ]; simpl; [ reflexivity | ].
  rewrite IH, digit36_base36; [ reflexivity | ]. apply N.mod_lt. discriminate.
Qed.

Lemma to_radix36_base36 (fuel : nat) (n : N) (acc : list ascii) :
  forallb is_base36 acc = true -> forallb is_base36 (to_radix36 fuel n acc) = true.
Proof.
  revert n acc. induction fuel as [ | fuel IH ]; intros n acc Hacc; simpl.
  - exact Hacc.
  - assert (Hd : forallb is_base36 (digit36 (n mod 36) :: acc) = true).
    { simpl. rewrite Hacc, digit36_base36; [ reflexivity | ].
      apply N.mod_lt. discriminate. }
    destruct (n / 36 =? 0)%N; [ exact Hd | apply IH, Hd ].
Qed.

Lemma to_radix36_grows (fuel : nat) (n : N) (acc : list ascii) :
  length acc <= length (to_radix36 fuel n acc).
Proof.
  revert n acc. induction fuel as [ | fuel IH ]; intros n acc; simpl; [ lia | ].
  destruct (n / 36 =? 0)%N; [ simpl; lia | ].
  specialize (IH (n / 36)%N (digit36 (n mod 36) :: acc)). simpl in IH. lia.
Qed.

Lemma toString36_nonempty (n : N) : toString36 n <> "".
Proof.
  unfold toString36. cbn [to_radix36].
  destruct (n / 36 =? 0)%N; [ discriminate | ].
  pose proof (to_radix36_grows (N.to_nat (N.log2 n)) (n / 36)%N [digit36 (n mod 36)]) as H.
  destruct (to_radix36 _ _ _); [ simpl in H; lia | discriminate ].
Qed.

Lemma toString36_base36 (n : N) : base36_string (toString36 n) = true.
Proof.
  unfold base36_string, toString36. rewrite list_ascii_of_string_of_list_ascii.
  apply to_radix36_base36. reflexivity.
Qed.

(** The fuel of [toString36] covers every digit: the numeral it
    returns denotes the number it was given. *)
Lemma digit36_value_digit36 (n : N) : (n < 36)%N -> digit36_value (digit36 n) = n.
Proof.
  intros H. unfold digit36_value, digit36, is_digit, code.
  destruct (N.ltb_spec n 10).
  - rewrite N_ascii_embedding by lia.
    replace ((48 <=? 48 + n) && (48 + n <=? 57))%N with true; [ lia | ].
    symmetry. apply andb_true_iff. split; apply N.leb_le; lia.
  - rewrite N_ascii_embedding by lia.
    replace ((48 <=? 87 + n) && (87 + n <=? 57))%N with false; [ lia | ].
    symmetry. apply andb_false_iff. right. apply N.leb_gt. lia.
Qed.

Lemma radix36_value_snoc (l : list ascii) (c : ascii) :
  radix36_value (l ++ [c]) = (radix36_value l * 36 + digit36_value c)%N.
Proof. unfold radix36_value. rewrite fold_left_app. reflexivity. Qed.

Lemma to_radix36_digits (fuel : nat) (n : N) (acc : list ascii) :
  (n < 36 ^ N.of_nat fuel)%N ->
  exists ds, to_radix36 fuel n acc = ds ++ acc /\ radix36_value ds = n.
Proof.
  revert n acc. induction fuel as [ | fuel IH ]; intros n acc Hn.
  - exists []. split; [ reflexivity | ]. simpl in Hn. unfold radix36_value. simpl. lia.
  - cbn [to_radix36].
    assert (Hmod : (n mod 36 < 36)%N) by (apply N.mod_lt; discriminate).
    assert (Hdiv : n = (36 * (n / 36) + n mod 36)%N) by (apply N.div_mod; discriminate).
    destruct (N.eqb_spec (n / 36) 0) as [ Hz | Hz ].
    + exists [digit36 (n mod 36)]. split; [ reflexivity | ].
      unfold radix36_value. simpl. rewrite digit36_value_digit36 by exact Hmod. lia.
    + destruct (IH (n / 36)%N (digit36 (n mod 36) :: acc)) as (ds & Hds & Hval).
      { rewrite Nat2N.inj_succ, N.pow_succ_r' in Hn.
        apply N.Div0.div_lt_upper_bound. exact Hn. }
      exists (ds ++ [digit36 (n mod 36)]). split.
      * rewrite Hds, <- app_assoc. reflexivity.
      * rewrite radix36_value_snoc, Hval, digit36_value_digit36 by exact Hmod. lia.
Qed.

Lemma toString36_value (n : N) :
  radix36_value (list_ascii_of_string (toString36 n)) = n.
Proof.
  unfold toString36. rewrite list_ascii_of_string_of_list_ascii.
  destruct (to_radix36_digits (S (N.to_nat (N.log2 n))) n []) as (ds & Hds & Hval).
  - rewrite Nat2N.inj_succ, N2Nat.id.
    destruct n as [ | p ]; [ reflexivity | ].
    pose proof (N.log2_spec (N.pos p) eq_refl) as [_ Hlt].
    eapply N.lt_le_trans; [ exact Hlt | ].
    apply N.pow_le_mono_l. lia.
  - rewrite Hds, app_nil_r. exact Hval.
Qed.

Lemma append_nonempty (a b : string) : b <> "" -> a +:+ b <> "".
Proof. destruct a; simpl; [ tauto | discriminate ]. Qed.

End StringFacts.

(** * Properties of the worker *)

Section WorkerFacts.

Context {NUM : Numbers} {RT : Runtime NUM} {TPL : Templates}.

Lemma login_is_handleAuth (p : string) (clk : clock) :
  login p clk = handleAuth (login_request p) clk.
Proof. reflexivity. Qed.

Lemma success_flag_success (h : list (string * string)) :
  success_flag (Response success_body h) = true.
Proof. reflexivity. Qed.

Lemma login_bootstrap (st : gmap string string) (p : string) (clk : clock) :
  truthy (st !! "admin_password") = false ->
  login p clk st =
  (Return (Response success_body [("Set-Cookie", session_cookie (generateToken clk))]),
   <["admin_session" := generateToken clk]> (<["admin_password" := p]> st)).
Proof.
  intros H. rewrite login_is_handleAuth. unfold handleAuth. run.
  run. rewrite H. reflexivity.
Qed.

Lemma truthy_nonempty (P : string) : P <> "" -> truthy (Some P) = true.
Proof.
  intros H. simpl. destruct (String.eqb_spec P ""); [ contradiction | reflexivity ].
Qed.

Lemma login_known_password (st : gmap string string) (P p : string) (clk : clock) :
  st !! "admin_password" = Some P -> P <> "" ->
  login p clk st =
  if String.eqb p P
  then (Return (Response success_body [("Set-Cookie", session_cookie (generateToken clk))]),
        <["admin_session" := generateToken clk]> st)
  else (Return (Response (failure_body "密码错误") json_headers), st).
Proof.
  intros Hst HP. rewrite login_is_handleAuth. unfold handleAuth.
  run. rewrite Hst, (truthy_nonempty P HP).
  cbn. destruct (String.eqb p P); reflexivity.
Qed.

(** C4. On a store without [admin_password], [login p] stores [p] as the
    password, stores the freshly generated token and answers success. *)
Theorem bootstrap_sets_password (st : gmap string string) (p : string) (clk : clock) :
  st !! "admin_password" = None ->
  exists r st',
    login p clk st = (Return r, st')
    /\ success_flag r = true
    /\ body r = success_body
    /\ headers r = [("Set-Cookie", session_cookie (generateToken clk))]
    /\ st' !! "admin_password" = Some p
    /\ st' !! "admin_session" = Some (generateToken clk)
    /\ st' = <["admin_session" := generateToken clk]> (<["admin_password" := p]> st).
Proof.
  intros Hst. eexists _, _. split.
  - apply login_bootstrap. rewrite Hst. reflexivity.
  - split; [ reflexivity | ]. split; [ reflexivity | ]. split; [ reflexivity | ].
    split; [ | split; [ | reflexivity ] ].
    + rewrite lookup_insert_ne by discriminate. apply lookup_insert_eq.
    + apply lookup_insert_eq.
Qed.

(** C2, amended. For a stored password [P] that is not the empty string,
    [login p] succeeds exactly when [p = P]; on a mismatch it answers the
    incorrect-password message and leaves the store as it was. *)
Theorem auth_correct_nonempty (P p : string) : P <> "" -> auth_correct P p.
Proof.
  intros HP st clk Hst. rewrite (login_known_password st P p clk Hst HP).
  destruct (String.eqb_spec p P) as [ -> | Hne ]; eexists _, _; split; try reflexivity.
  - split; [ tauto | intros Hc; contradiction ].
  - split; [ | tauto ]. split; [ | contradiction ]. intros Hc. discriminate Hc.
Qed.

(** C6. [getData] always returns a response with status 200 whose body
    is the JSON text of [{categories, sites}]; a collection whose key is
    absent or does not decode is the empty sequence. *)
Theorem getData_fail_soft (st : gmap string string) (clk : clock) :
  exists r c s,
    getData clk st = (Return r, st)
    /\ status r = 200
    /\ body r = data_body c s
    /\ (undecodable st "categories" -> c = JArr [])
    /\ (undecodable st "sites" -> s = JArr []).
Proof.
  change (getData clk st) with (handleGetData st). unfold handleGetData, undecodable. run.
  destruct (st !! "categories") as [ tc | ] eqn:Ec;
    destruct (st !! "sites") as [ ts | ] eqn:Es; cbn [truthy default from_option id].
  all: repeat match goal with
       | |- context [ negb (String.eqb ?t "") ] => destruct (String.eqb_spec t ""); cbn [negb]
       | |- context [ json_parse ?t ] => destruct (json_parse t) eqn:?
       end.
  all: eexists _, _, _; split; [ reflexivity | ].
  all: split; [ reflexivity | ]; split; [ reflexivity | ].
  all: split; intros [ Hc | (t & Ht & Hp) ]; try reflexivity; try discriminate Hc;
       try (injection Ht as <-; congruence).
Qed.

(** A stored value that is not JSON empties both collections: the
    exception of [JSON.parse] is caught around the whole body. *)
Lemma getData_collapses (st : gmap string string) (clk : clock) (key : string)
  (t : string) :
  key = "categories" \/ key = "sites" ->
  st !! key = Some t -> t <> "" -> json_parse (NUM := NUM) t = None ->
  getData clk st = (Return (Response (data_body (JArr []) (JArr [])) json_headers), st).
Proof.
  intros Hkey Ht Hne Hp.
  change (getData clk st) with (handleGetData st). unfold handleGetData. run.
  assert (Htruthy : truthy (Some t) = true) by (apply truthy_nonempty, Hne).
  destruct Hkey as [ -> | -> ]; rewrite Ht, Htruthy; cbn [default from_option id];
    rewrite Hp.
  - reflexivity.
  - destruct (st !! "categories") as [ tc | ]; cbn [truthy default from_option id];
      [ destruct (negb (String.eqb tc "")); [ destruct (json_parse tc) | ] | ];
      reflexivity.
Qed.

(** What [handleChangePassword] does, branch by branch. *)
Lemma changePassword_run (c : option string) (t : string) (clk : clock)
  (st : gmap string string) :
  changePassword c t clk st =
  match json_parse t with
  | None | Some JNull => (Return (Response (failure_body "修改失败") json_headers), st)
  | Some o =>
    if negb (strict_eq (prop o "currentPassword") (of_nullable (st !! "admin_password")))
    then (Return (Response (failure_body "当前密码错误") json_headers), st)
    else if negb (strict_eq (prop o "newPassword") (prop o "confirmPassword"))
    then (Return (Response (failure_body "新密码和确认密码不一致") json_headers), st)
    else match put_text (prop o "newPassword") with
         | Some s => (Return (Response password_changed_body json_headers),
                      <["admin_password" := s]> st)
         | None => (Return (Response (failure_body "修改失败") json_headers), st)
         end
  end.
Proof.
  change (changePassword c t clk st)
    with (handleChangePassword (json_request "/admin/change-password" c t) st).
  unfold handleChangePassword. run.
  destruct (json_parse t) as [ o | ]; [ | reflexivity ].
  destruct o; try reflexivity;
    repeat match goal with
           | |- context [ if negb ?b then _ else _ ] => destruct b; cbn [negb]
           | |- context [ put_text ?v ] => destruct (put_text v)
           end; reflexivity.
Qed.

Lemma failure_flag (message : string) (h : list (string * string)) :
  success_flag (Response (failure_body message) h) = false.
Proof.
  unfold success_flag, failure_body. cbn [body Response].
  rewrite json_parse_stringify by reflexivity. reflexivity.
Qed.

(** C7. With a stored password [P], [changePassword] fails when the
    current password differs from [P] and fails when the new password and
    its confirmation differ; in both cases nothing is written. *)
Theorem changePassword_guard (st : gmap string string) (P : string)
  (c : option string) (t : string) (clk : clock) (o : json NUM) :
  st !! "admin_password" = Some P ->
  json_parse t = Some o ->
  strict_eq (prop o "currentPassword") (VStr P) = false
  \/ strict_eq (prop o "newPassword") (prop o "confirmPassword") = false ->
  exists r,
    changePassword c t clk st = (Return r, st)
    /\ success_flag r = false
    /\ (o <> JNull -> strict_eq (prop o "currentPassword") (VStr P) = false ->
        body r = failure_body "当前密码错误").
Proof.
  intros Hst Ht Hbad. rewrite changePassword_run, Ht, Hst. cbn [of_nullable].
  destruct o;
    try (eexists; split; [ reflexivity | split; [ apply failure_flag | ] ];
         intros _ _; reflexivity).
  - eexists; split; [ reflexivity | split; [ apply failure_flag | ] ].
    intros Hc; contradiction.
  - destruct (strict_eq (prop (JObj members) "currentPassword") (VStr P)) eqn:Ecur;
      cbn [negb].
    + destruct Hbad as [ Hbad | Hbad ]; [ discriminate Hbad | ].
      rewrite Hbad. cbn [negb].
      eexists; split; [ reflexivity | split; [ apply failure_flag | ] ].
      intros _ Hc; discriminate Hc.
    + eexists; split; [ reflexivity | split; [ apply failure_flag | ] ].
      reflexivity.
Qed.

(** C9. A successful [changePassword] writes the key [admin_password]
    and no other: the session token, the categories and the sites stay
    as they were. *)
Theorem changePassword_frame (st st' : gmap string string) (c : option string)
  (t : string) (clk : clock) (r : response) :
  changePassword c t clk st = (Return r, st') ->
  success_flag r = true ->
  (exists s, st' = <["admin_password" := s]> st)
  /\ st' !! "admin_session" = st !! "admin_session"
  /\ st' !! "categories" = st !! "categories"
  /\ st' !! "sites" = st !! "sites"
  /\ (forall key, key <> "admin_password" -> st' !! key = st !! key).
Proof.
  intros Hrun Hok. rewrite changePassword_run in Hrun.
  assert (Hs : exists s, st' = <["admin_password" := s]> st).
  { repeat (split_match; try discriminate Hrun);
      injection Hrun as <- <-; rewrite ?failure_flag in Hok; try discriminate Hok;
      eauto. }
  destruct Hs as [s ->]. split; [ eauto | ].
  repeat split; intros; rewrite lookup_insert_ne; congruence.
Qed.

(** C10. On a store without [admin_password], a request whose
    [currentPassword] is JSON [null] passes the current-password check:
    with equal new and confirmation passwords it succeeds and sets the
    password, whatever the cookie. *)
Theorem changePassword_null_on_fresh_store (st : gmap string string)
  (c : option string) (t : string) (clk : clock) (o : json NUM) (n : string) :
  st !! "admin_password" = None ->
  json_parse t = Some o ->
  prop o "currentPassword" = VNull ->
  prop o "newPassword" = VStr n ->
  prop o "confirmPassword" = VStr n ->
  changePassword c t clk st =
  (Return (Response password_changed_body json_headers), <["admin_password" := n]> st)
  /\ success_flag (Response password_changed_body json_headers) = true.
Proof.
  intros Hst Ht Hcur Hnew Hconf. split; [ | reflexivity ].
  rewrite changePassword_run, Ht, Hst, Hcur, Hnew, Hconf.
  cbn [of_nullable VNull VStr strict_eq negb put_text]. rewrite String.eqb_refl.
  cbn [negb]. destruct o; try reflexivity; discriminate Hnew.
Qed.

(** What [handleSaveData] does, branch by branch. The cookie of the
    request is never read. *)
Lemma saveData_run (c : option string) (t : string) (clk : clock)
  (st : gmap string string) :
  saveData c t clk st =
  match json_parse t with
  | None | Some JNull => (Return (Response (failure_body "保存失败") json_headers), st)
  | Some o =>
    match put_text (js_stringify (prop o "categories")) with
    | None => (Return (Response (failure_body "保存失败") json_headers), st)
    | Some cs =>
      match put_text (js_stringify (prop o "sites")) with
      | None => (Return (Response (failure_body "保存失败") json_headers),
                 <["categories" := cs]> st)
      | Some ss => (Return (Response success_body json_headers),
                    <["sites" := ss]> (<["categories" := cs]> st))
      end
    end
  end.
Proof.
  change (saveData c t clk st)
    with (handleSaveData (json_request "/admin/save" c t) st).
  unfold handleSaveData. run.
  destruct (json_parse t) as [ o | ]; [ | reflexivity ].
  destruct o; try reflexivity;
    repeat match goal with
           | |- context [ put_text ?v ] => destruct (put_text v)
           end; reflexivity.
Qed.

Lemma stringify_truthy (v : json NUM) :
  plain v = true -> truthy (Some (json_stringify v)) = true.
Proof.
  destruct v as [ | [] | | s | | ]; intros Hp; try discriminate Hp; reflexivity.
Qed.

Lemma getData_decodes (st : gmap string string) (clk : clock) (tc ts : string)
  (c s : json NUM) :
  st !! "categories" = Some tc -> st !! "sites" = Some ts ->
  truthy (Some tc) = true -> truthy (Some ts) = true ->
  json_parse tc = Some c -> json_parse ts = Some s ->
  getData clk st =
  (Return (Response (data_body c s)
             [("Content-Type", "application/json"); ("Cache-Control", "no-cache")]),
   st).
Proof.
  intros Ec Es Hc Hs Pc Ps.
  change (getData clk st) with (handleGetData st). unfold handleGetData. run.
  rewrite Ec, Es, Hc, Hs. cbn [default from_option id]. rewrite Pc, Ps. reflexivity.
Qed.

(** Every sequence of category names and every sequence of sites is a
    sequence of plain values. *)
Lemma categories_plain (names : list string) :
  forallb plain (json_of_categories names) = true.
Proof. induction names as [ | x names IH ]; simpl; [ reflexivity | exact IH ]. Qed.

Lemma sites_plain (sites : list site) :
  forallb plain (json_of_sites sites) = true.
Proof. induction sites as [ | x sites IH ]; simpl; [ reflexivity | exact IH ]. Qed.

(** C3. Saving a categories sequence [C] and a sites sequence [S] and
    then reading the data back returns exactly [C] and [S], in order. *)
Theorem save_then_get (st : gmap string string) (c : option string) (t : string)
  (clk clk' : clock) (o : json NUM) (C S : list (json NUM)) :
  json_parse t = Some o ->
  prop o "categories" = VJson (JArr C) ->
  prop o "sites" = VJson (JArr S) ->
  forallb plain C = true -> forallb plain S = true ->
  exists st' r,
    saveData c t clk st = (Return (Response success_body json_headers), st')
    /\ getData clk' st' = (Return r, st')
    /\ status r = 200
    /\ body r = data_body (JArr C) (JArr S)
    /\ json_parse (body r) = Some (JObj [("categories", JArr C); ("sites", JArr S)]).
Proof.
  intros Ht HC HS HpC HpS.
  eexists _, _. split; [ | split; [ | split; [ | split ] ] ].
  - rewrite saveData_run, Ht, HC, HS. cbn [js_stringify VStr put_text].
    destruct o; try reflexivity. discriminate HC.
  - apply getData_decodes with (tc := json_stringify (JArr C)) (ts := json_stringify (JArr S)).
    + rewrite lookup_insert_ne by discriminate. apply lookup_insert_eq.
    + apply lookup_insert_eq.
    + apply stringify_truthy. exact HpC.
    + apply stringify_truthy. exact HpS.
    + apply json_parse_stringify. exact HpC.
    + apply json_parse_stringify. exact HpS.
  - reflexivity.
  - reflexivity.
  - cbn [body Response]. unfold data_body. apply json_parse_stringify.
    cbn [plain forallb snd map fst]. rewrite HpC, HpS. reflexivity.
Qed.

(** The session cookie plays no part in a save. *)
Lemma saveData_ignores_cookie (c c' : option string) (t : string) (clk : clock)
  (st : gmap string string) :
  saveData c t clk st = saveData c' t clk st.
Proof. rewrite !saveData_run. reflexivity. Qed.

(** *** Tokens and sessions *)

Lemma generateToken_base36 (clk : clock) : base36_string (generateToken clk) = true.
Proof.
  unfold generateToken, base36_string. rewrite list_ascii_of_string_app, forallb_app.
  apply andb_true_intro. split; [ | apply toString36_base36 ].
  unfold substring_from, random_toString36.
  rewrite list_ascii_of_string_of_list_ascii.
  destruct (random_digits clk) as [ | d ds ]; [ reflexivity | ].
  rewrite list_ascii_of_string_app, list_ascii_of_string_of_list_ascii.
  exact (digits36_base36 (d :: ds)).
Qed.

Lemma generateToken_nonempty (clk : clock) : generateToken clk <> "".
Proof. apply append_nonempty, toString36_nonempty. Qed.

(** [checkSession] only reads the store, and a request without a
    [Cookie] header is not authenticated. *)
Lemma checkSession_readonly (req : request) (st : gmap string string) :
  exists s, checkSession req st = (Return s, st).
Proof.
  unfold checkSession. run.
  repeat match goal with
         | |- context [ if ?b then _ else _ ] => destruct b
         end; eexists; reflexivity.
Qed.

Lemma checkSession_no_header (req : request) (st : gmap string string) :
  cookie req = None ->
  checkSession req st = (Return {| isAuthenticated := false; token := None |}, st).
Proof. intros H. unfold checkSession. rewrite H. reflexivity. Qed.

(** [checkSession] on a request whose cookie is [admin_session=tok], for
    a non-empty token over the base-36 alphabet: authenticated exactly
    when the stored token is [tok]; the store is only read. *)
Lemma checkSession_token (tok : string) (st : gmap string string) :
  base36_string tok = true -> tok <> "" ->
  checkSession (request_with_token tok) st =
  (Return (if decide (st !! "admin_session" = Some tok)
           then {| isAuthenticated := true; token := Some tok |}
           else {| isAuthenticated := false; token := None |}),
   st).
Proof.
  intros Hb Hne. unfold checkSession. run.
  change (truthy (Some ("admin_session=" +:+ tok))) with true.
  cbn [negb default from_option id].
  rewrite (session_header_cookies tok Hb). cbn [find].
  rewrite startsWith_append. cbn [truthy negb default from_option id].
  change (negb ("admin_session=" +:+ tok =? "")%string) with true. cbn [negb].
  rewrite (session_cookie_token tok Hb). cbn [truthy].
  destruct (String.eqb_spec tok ""); [ contradiction | ]. cbn [negb].
  destruct (st !! "admin_session") as [ t | ] eqn:Et; unfold of_nullable, VStr, VNull, strict_eq.
  - destruct (String.eqb_spec t tok) as [ -> | Hneq ].
    + destruct (decide (Some tok = Some tok)); [ reflexivity | contradiction ].
    + destruct (decide (Some t = Some tok)) as [ E | ]; [ | reflexivity ].
      injection E as ->. contradiction.
  - destruct (decide (None = Some tok)) as [ E | ]; [ discriminate E | reflexivity ].
Qed.

Lemma login_success_stores_token (st st' : gmap string string) (p : string)
  (clk : clock) (r : response) :
  login p clk st = (Return r, st') -> success_flag r = true ->
  st' !! "admin_session" = Some (generateToken clk).
Proof.
  intros Hrun Hok.
  destruct (truthy (st !! "admin_password")) eqn:Ht.
  - destruct (st !! "admin_password") as [ P | ] eqn:EP; [ | discriminate Ht ].
    assert (HP : P <> "") by (intros ->; discriminate Ht).
    rewrite (login_known_password st P p clk EP HP) in Hrun.
    destruct (String.eqb p P); injection Hrun as <- <-.
    + apply lookup_insert_eq.
    + rewrite failure_flag in Hok. discriminate Hok.
  - rewrite (login_bootstrap st p clk Ht) in Hrun. injection Hrun as <- <-.
    apply lookup_insert_eq.
Qed.

(** C5. After two successive successful logins that stored the tokens
    [t1] and then [t2], with [t1 <> t2], a request carrying [t1] is not
    authenticated and a request carrying [t2] is. *)
Theorem single_active_session (st0 st1 st2 : gmap string string) (p1 p2 : string)
  (clk1 clk2 : clock) (r1 r2 : response) :
  login p1 clk1 st0 = (Return r1, st1) -> success_flag r1 = true ->
  login p2 clk2 st1 = (Return r2, st2) -> success_flag r2 = true ->
  let t1 := generateToken clk1 in
  let t2 := generateToken clk2 in
  t1 <> t2 ->
  st1 !! "admin_session" = Some t1
  /\ st2 !! "admin_session" = Some t2
  /\ checkSession (request_with_token t1) st2
     = (Return {| isAuthenticated := false; token := None |}, st2)
  /\ checkSession (request_with_token t2) st2
     = (Return {| isAuthenticated := true; token := Some t2 |}, st2).
Proof.
  intros H1 Hok1 H2 Hok2 t1 t2 Hne.
  pose proof (login_success_stores_token _ _ _ _ _ H1 Hok1) as Hs1.
  pose proof (login_success_stores_token _ _ _ _ _ H2 Hok2) as Hs2.
  fold t1 in Hs1. fold t2 in Hs2.
  split; [ exact Hs1 | ]. split; [ exact Hs2 | ]. split.
  - rewrite checkSession_token
      by (apply generateToken_base36 || apply generateToken_nonempty).
    rewrite Hs2. destruct (decide (Some t2 = Some t1)) as [ E | ]; [ | reflexivity ].
    injection E as E. symmetry in E. contradiction.
  - rewrite checkSession_token
      by (apply generateToken_base36 || apply generateToken_nonempty).
    rewrite Hs2. destruct (decide (Some t2 = Some t2)); [ reflexivity | contradiction ].
Qed.

End WorkerFacts.

(** * Further properties of the worker *)

Section RouteFacts.

Context {NUM : Numbers} {RT : Runtime NUM} {TPL : Templates}.

(** *** Helpers *)

Lemma logout_run (c : option string) (clk : clock) (st : gmap string string) :
  logout c clk st =
  (Return (Response success_body
             [("Content-Type", "application/json");
              ("Set-Cookie", "admin_session=; Max-Age=0; Path=/; HttpOnly")]),
   delete "admin_session" st).
Proof. reflexivity. Qed.

Lemma checkSession_without_stored_token (req : request) (st : gmap string string) :
  st !! "admin_session" = None ->
  checkSession req st = (Return anonymous, st).
Proof.
  intros Hst. destruct req as [m pth ck tx fm]. unfold checkSession, anonymous. run.
  destruct (truthy ck); cbn [negb]; [ | reflexivity ].
  destruct (truthy (find _ _)); cbn [negb]; [ | reflexivity ].
  destruct (nth_error _ 1) as [ tok | ]; cbn [truthy]; [ | reflexivity ].
  destruct (negb (String.eqb tok "")); cbn [negb]; [ | reflexivity ].
  rewrite Hst. reflexivity.
Qed.

(** The answer of [checkSession] depends on the store through the key
    [admin_session] only. *)
Lemma checkSession_reads_session_only (req : request) (st1 st2 : gmap string string) :
  st1 !! "admin_session" = st2 !! "admin_session" ->
  fst (checkSession req st1) = fst (checkSession req st2).
Proof.
  intros Hst. destruct req as [m pth ck tx fm]. unfold checkSession. run.
  destruct (truthy ck); cbn [negb]; [ | reflexivity ].
  destruct (truthy (find _ _)); cbn [negb]; [ | reflexivity ].
  destruct (negb (truthy (nth_error _ 1))); [ reflexivity | ].
  rewrite Hst. destruct (strict_eq _ _); reflexivity.
Qed.

Lemma not_action (req : request) :
  is_action req = false ->
  (String.eqb (pathname req) "/admin/auth" && String.eqb (method req) "POST" = false)
  /\ (String.eqb (pathname req) "/admin/save" && String.eqb (method req) "POST" = false)
  /\ (String.eqb (pathname req) "/admin/change-password"
      && String.eqb (method req) "POST" = false)
  /\ (String.eqb (pathname req) "/admin/logout" && String.eqb (method req) "POST" = false).
Proof.
  unfold is_action.
  destruct (String.eqb (method req) "POST");
    destruct (String.eqb (pathname req) "/admin/auth");
    destruct (String.eqb (pathname req) "/admin/save");
    destruct (String.eqb (pathname req) "/admin/change-password");
    destruct (String.eqb (pathname req) "/admin/logout");
    cbn; intros H; try discriminate H; repeat split.
Qed.

Lemma getData_reads (st : gmap string string) :
  exists r, handleGetData st = (Return r, st) /\ status r = 200.
Proof.
  unfold handleGetData. run.
  destruct (truthy (st !! "categories"));
    [ destruct (json_parse (default "" (st !! "categories"))) | ];
    (destruct (truthy (st !! "sites"));
     [ destruct (json_parse (default "" (st !! "sites"))) | ]);
    eexists; split; reflexivity.
Qed.








Lemma admin_page_responds (req : request) (st : gmap string string) :
  exists r,
    (s ← checkSession req;
     if isAuthenticated s then
       mret (Response (generateAdminPage true)
               [("Content-Type", "text/html; charset=UTF-8");
                ("Set-Cookie", session_cookie (default "" (token s)))])
     else mret (Response (generateAdminPage false) html_headers)) st
    = (Return r, st) /\ status r = 200.
Proof.
  destruct (checkSession_readonly req st) as (s & Hs).
  unfold mbind, js_bind. rewrite Hs.
  destruct (isAuthenticated s); eexists; split; reflexivity.
Qed.

(** X1. After a logout no request is authenticated, whatever cookie it
    carries. *)
Theorem logout_ends_every_session (c : option string) (clk : clock)
  (st : gmap string string) :
  exists r st',
    logout c clk st = (Return r, st')
    /\ success_flag r = true
    /\ forall req, checkSession req st' = (Return anonymous, st').
Proof.
  eexists _, _. split; [ apply logout_run | ]. split; [ reflexivity | ].
  intros req. apply checkSession_without_stored_token, lookup_delete_eq.
Qed.

(** X2. A logout needs no session and a second logout changes nothing:
    it gives the same response and the same store as the first. *)
Theorem logout_idempotent (c c' : option string) (clk clk' : clock)
  (st : gmap string string) :
  exists r st1,
    logout c clk st = (Return r, st1)
    /\ logout c' clk' st1 = (Return r, st1).
Proof.
  eexists _, _. split; [ apply logout_run | ].
  rewrite logout_run, delete_delete_eq. reflexivity.
Qed.

(** X3. A logout keeps the password: the stored password still logs in
    afterwards, and any other password is still refused. *)
Theorem logout_keeps_password (c : option string) (clk clk' : clock)
  (st : gmap string string) (P q : string) :
  st !! "admin_password" = Some P -> P <> "" ->
  exists r st1 r' st2,
    logout c clk st = (Return r, st1)
    /\ login q clk' st1 = (Return r', st2)
    /\ (success_flag r' = true <-> q = P)
    /\ st2 !! "admin_password" = Some P.
Proof.
  intros Hst HP.
  assert (H1 : delete "admin_session" st !! "admin_password" = Some P)
    by (rewrite lookup_delete_ne by discriminate; exact Hst).
  pose proof (login_known_password _ P q clk' H1 HP) as Hlogin.
  destruct (String.eqb_spec q P) as [ -> | Hne ].
  - eexists _, _, _, _. split; [ apply logout_run | ].
    split; [ exact Hlogin | ]. split; [ tauto | ].
    rewrite lookup_insert_ne by discriminate. exact H1.
  - eexists _, _, _, _. split; [ apply logout_run | ].
    split; [ exact Hlogin | ]. split; [ | exact H1 ].
    rewrite failure_flag. split; [ discriminate | contradiction ].
Qed.

(** X4. There is no 404: a request whose path does not start with
    [/admin] and that is not [GET /data] gets the home page, and the
    store is left as it was. *)
Theorem unknown_path_serves_home_page (req : request) (clk : clock)
  (st : gmap string string) :
  startsWith (pathname req) "/admin" = false ->
  (pathname req = "/data" -> method req <> "GET") ->
  handleRequest req clk st = (Return home_response, st).
Proof.
  intros Hadmin Hdata. unfold handleRequest. rewrite Hadmin.
  destruct (String.eqb_spec (pathname req) "/data") as [ Hp | Hp ].
  - destruct (String.eqb_spec (method req) "GET") as [ Hm | Hm ].
    + destruct (Hdata Hp Hm).
    + cbn [andb]. destruct (String.eqb (pathname req) "/"); reflexivity.
  - cbn [andb]. destruct (String.eqb (pathname req) "/"); reflexivity.
Qed.

(** X5. Only the four POST routes [/admin/auth], [/admin/save],
    [/admin/change-password] and [/admin/logout] write: every other
    request, whatever its method and path, leaves the store as it was. *)
Theorem only_actions_write (req : request) (clk : clock) (st : gmap string string) :
  is_action req = false ->
  exists r, handleRequest req clk st = (Return r, st).
Proof.
  intros Hact. apply not_action in Hact as (Hauth & Hsave & Hchange & Hlogout).
  unfold handleRequest.
  destruct (String.eqb (pathname req) "/data" && String.eqb (method req) "GET").
  - destruct (getData_reads st) as (r & Hr & _). eauto.
  - destruct (startsWith (pathname req) "/admin").
    + unfold handleAdminRequest. cbv zeta. rewrite Hauth, Hsave, Hchange, Hlogout.
      destruct (admin_page_responds req st) as (r & Hr & _). eauto.
    + destruct (String.eqb (pathname req) "/"); eexists; reflexivity.
Qed.


(** *** Sessions, passwords and saved data *)

Lemma login_success_response (st st' : gmap string string) (p : string)
  (clk : clock) (r : response) :
  login p clk st = (Return r, st') -> success_flag r = true ->
  r = Response success_body [("Set-Cookie", session_cookie (generateToken clk))].
Proof.
  intros Hrun Hok.
  destruct (truthy (st !! "admin_password")) eqn:Ht.
  - destruct (st !! "admin_password") as [ P | ] eqn:EP; [ | discriminate Ht ].
    assert (HP : P <> "") by (intros ->; discriminate Ht).
    rewrite (login_known_password st P p clk EP HP) in Hrun.
    destruct (String.eqb p P); injection Hrun as <- <-.
    + reflexivity.
    + rewrite failure_flag in Hok. discriminate Hok.
  - rewrite (login_bootstrap st p clk Ht) in Hrun. injection Hrun as <- <-.
    reflexivity.
Qed.

Lemma page_with_token (tok : string) (clk : clock) (st : gmap string string) :
  base36_string tok = true -> tok <> "" ->
  handleRequest (request_with_token tok) clk st =
  (Return (if decide (st !! "admin_session" = Some tok)
           then console_response tok else login_page_response),
   st).
Proof.
  intros Hb Hne.
  change (handleRequest (request_with_token tok) clk st)
    with ((s ← checkSession (request_with_token tok);
           if isAuthenticated s then
             mret (Response (generateAdminPage true)
                     [("Content-Type", "text/html; charset=UTF-8");
                      ("Set-Cookie", session_cookie (default "" (token s)))])
           else mret (Response (generateAdminPage false) html_headers)) st).
  unfold mbind, js_bind. rewrite (checkSession_token tok st Hb Hne).
  destruct (decide (st !! "admin_session" = Some tok)); reflexivity.
Qed.

(** X7. The life of a session: the token a successful login sends in its
    [Set-Cookie] header opens the console, which sends the same cookie
    again and writes nothing; after a logout the same cookie gets the
    login page. *)
Theorem session_lifecycle (st st1 : gmap string string) (p : string)
  (clk clk' clk'' : clock) (c : option string) (r : response) :
  login p clk st = (Return r, st1) -> success_flag r = true ->
  headers r = [("Set-Cookie", session_cookie (generateToken clk))]
  /\ handleRequest (request_with_token (generateToken clk)) clk' st1
     = (Return (console_response (generateToken clk)), st1)
  /\ exists r2 st2,
       logout c clk'' st1 = (Return r2, st2)
       /\ handleRequest (request_with_token (generateToken clk)) clk' st2
          = (Return login_page_response, st2).
Proof.
  intros Hrun Hok.
  pose proof (login_success_response _ _ _ _ _ Hrun Hok) as ->.
  pose proof (login_success_stores_token _ _ _ _ _ Hrun Hok) as Htok.
  split; [ reflexivity | ]. split.
  - rewrite page_with_token
      by (apply generateToken_base36 || apply generateToken_nonempty).
    destruct (decide (st1 !! "admin_session" = Some (generateToken clk)));
      [ reflexivity | contradiction ].
  - eexists _, _. split; [ apply logout_run | ].
    rewrite page_with_token
      by (apply generateToken_base36 || apply generateToken_nonempty).
    rewrite lookup_delete_eq.
    destruct (decide (None = Some (generateToken clk))) as [ E | ];
      [ discriminate E | reflexivity ].
Qed.

(** X8. The first password wins: after the first login on a store
    without password, with a non-empty password [p], a login succeeds
    exactly with [p] and the stored password stays [p]. *)
Theorem first_password_wins (st : gmap string string) (p q : string) (clk clk' : clock) :
  st !! "admin_password" = None -> p <> "" ->
  exists r1 st1 r2 st2,
    login p clk st = (Return r1, st1)
    /\ success_flag r1 = true
    /\ login q clk' st1 = (Return r2, st2)
    /\ (success_flag r2 = true <-> q = p)
    /\ st2 !! "admin_password" = Some p.
Proof.
  intros Hst Hp.
  assert (Hboot : truthy (st !! "admin_password") = false) by (rewrite Hst; reflexivity).
  pose proof (login_bootstrap st p clk Hboot) as H1.
  set (st1 := <["admin_session" := generateToken clk]> (<["admin_password" := p]> st)) in *.
  assert (Hpw : st1 !! "admin_password" = Some p).
  { unfold st1. rewrite lookup_insert_ne by discriminate. apply lookup_insert_eq. }
  pose proof (login_known_password st1 p q clk' Hpw Hp) as H2.
  destruct (String.eqb_spec q p) as [ -> | Hne ].
  - eexists _, _, _, _. split; [ exact H1 | ]. split; [ reflexivity | ].
    split; [ exact H2 | ]. split; [ tauto | ].
    rewrite lookup_insert_ne by discriminate. exact Hpw.
  - eexists _, _, _, _. split; [ exact H1 | ]. split; [ reflexivity | ].
    split; [ exact H2 | ]. split; [ | exact Hpw ].
    rewrite failure_flag. split; [ discriminate | contradiction ].
Qed.

Lemma change_succeeds (st : gmap string string) (P n : string) (c : option string)
  (t : string) (clk : clock) (o : json NUM) :
  st !! "admin_password" = Some P ->
  json_parse t = Some o ->
  prop o "currentPassword" = VStr P ->
  prop o "newPassword" = VStr n ->
  prop o "confirmPassword" = VStr n ->
  changePassword c t clk st =
  (Return (Response password_changed_body json_headers), <["admin_password" := n]> st).
Proof.
  intros Hst Ht Hcur Hnew Hconf.
  rewrite changePassword_run, Ht, Hst, Hcur, Hnew, Hconf.
  cbn [of_nullable VStr strict_eq negb put_text]. rewrite !String.eqb_refl.
  cbn [negb]. destruct o; try reflexivity; discriminate Hnew.
Qed.

(** X9. The server checks no length: a change to the empty password is
    accepted, and from then on every login succeeds and sets the
    password anew, as on first use. *)
Theorem empty_new_password_reopens_bootstrap (st : gmap string string) (P : string)
  (c : option string) (t : string) (clk : clock) (o : json NUM) :
  st !! "admin_password" = Some P ->
  json_parse t = Some o ->
  prop o "currentPassword" = VStr P ->
  prop o "newPassword" = VStr "" ->
  prop o "confirmPassword" = VStr "" ->
  exists st1,
    changePassword c t clk st
    = (Return (Response password_changed_body json_headers), st1)
    /\ forall q clk', exists r st2,
         login q clk' st1 = (Return r, st2)
         /\ success_flag r = true
         /\ st2 !! "admin_password" = Some q.
Proof.
  intros Hst Ht Hcur Hnew Hconf. eexists. split.
  - exact (change_succeeds st P "" c t clk o Hst Ht Hcur Hnew Hconf).
  - intros q clk'. eexists _, _. split.
    + apply login_bootstrap. rewrite lookup_insert_eq. reflexivity.
    + split; [ reflexivity | ].
      rewrite lookup_insert_ne by discriminate. apply lookup_insert_eq.
Qed.

(** X10. After a successful change to a non-empty password [n], a login
    succeeds exactly with [n]: the old password no longer works. *)
Theorem changed_password_logs_in (st : gmap string string) (P n : string)
  (c : option string) (t : string) (clk : clock) (o : json NUM) :
  st !! "admin_password" = Some P ->
  json_parse t = Some o ->
  prop o "currentPassword" = VStr P ->
  prop o "newPassword" = VStr n ->
  prop o "confirmPassword" = VStr n ->
  n <> "" ->
  exists st1,
    changePassword c t clk st
    = (Return (Response password_changed_body json_headers), st1)
    /\ forall q clk', exists r st2,
         login q clk' st1 = (Return r, st2)
         /\ (success_flag r = true <-> q = n).
Proof.
  intros Hst Ht Hcur Hnew Hconf Hn. eexists. split.
  - exact (change_succeeds st P n c t clk o Hst Ht Hcur Hnew Hconf).
  - intros q clk'.
    pose proof (login_known_password (<["admin_password" := n]> st) n q clk'
                  (lookup_insert_eq _ _ _) Hn) as Hlogin.
    destruct (String.eqb_spec q n) as [ -> | Hne ].
    + eexists _, _. split; [ exact Hlogin | ]. split; reflexivity.
    + eexists _, _. split; [ exact Hlogin | ]. rewrite failure_flag.
      split; [ discriminate | contradiction ].
Qed.

(** X11. A password change logs nobody out: whatever its outcome, every
    request is authenticated after it exactly when it was before. *)
Theorem password_change_keeps_sessions (c : option string) (t : string) (clk : clock)
  (st : gmap string string) :
  exists r st',
    changePassword c t clk st = (Return r, st')
    /\ forall req, fst (checkSession req st') = fst (checkSession req st).
Proof.
  rewrite changePassword_run.
  repeat match goal with
         | |- context [ match ?x with _ => _ end ] => destruct x
         | |- context [ if ?b then _ else _ ] => destruct b
         end;
    eexists _, _; (split; [ reflexivity | ]); intros req;
    apply checkSession_reads_session_only;
    rewrite ?lookup_insert_ne by discriminate; reflexivity.
Qed.

(** X12. A save never touches the credentials: whatever its body and its
    outcome, the stored password and session token are as before, and
    so is the answer of [checkSession] to every request. *)
Theorem save_keeps_credentials (c : option string) (t : string) (clk : clock)
  (st : gmap string string) :
  exists r st',
    saveData c t clk st = (Return r, st')
    /\ st' !! "admin_password" = st !! "admin_password"
    /\ st' !! "admin_session" = st !! "admin_session"
    /\ forall req, fst (checkSession req st') = fst (checkSession req st).
Proof.
  rewrite saveData_run.
  repeat match goal with
         | |- context [ match ?x with _ => _ end ] => destruct x
         end;
    eexists _, _; (split; [ reflexivity | ]);
    (split; [ rewrite ?lookup_insert_ne by discriminate; reflexivity | ]);
    (split; [ rewrite ?lookup_insert_ne by discriminate; reflexivity | ]);
    intros req; apply checkSession_reads_session_only;
    rewrite ?lookup_insert_ne by discriminate; reflexivity.
Qed.

(** X13. A body that is not JSON, or that is the JSON value [null], is
    refused by the save route and by the change-password route with
    their failure message, and nothing is written. *)
Theorem malformed_body_writes_nothing (c : option string) (t : string) (clk : clock)
  (st : gmap string string) :
  json_parse (NUM := NUM) t = None \/ json_parse (NUM := NUM) t = Some JNull ->
  saveData c t clk st = (Return (Response (failure_body "保存失败") json_headers), st)
  /\ changePassword c t clk st
     = (Return (Response (failure_body "修改失败") json_headers), st).
Proof.
  intros [ H | H ]; rewrite saveData_run, changePassword_run, H; split; reflexivity.
Qed.


(** X15. A login request without a text password (a body that is not a
    form, a form without the [password] field, or a file in that field)
    never logs in against a stored non-empty password, and it writes
    nothing. *)
Theorem login_without_text_password (f : option (list (string * form_entry)))
  (clk : clock) (st : gmap string string) (P : string) :
  st !! "admin_password" = Some P -> P <> "" ->
  (forall entries s, f = Some entries -> assoc "password" entries <> Some (FormText s)) ->
  exists r,
    handleRequest (auth_request f) clk st = (Return r, st)
    /\ success_flag r = false.
Proof.
  intros Hst HP Hf.
  change (handleRequest (auth_request f) clk st) with (handleAuth (auth_request f) clk st).
  unfold handleAuth, auth_request. run.
  destruct f as [ entries | ].
  - rewrite Hst, (truthy_nonempty P HP). cbn [negb of_nullable]. unfold form_get.
    specialize (Hf entries).
    destruct (assoc "password" entries) as [ [ s | ] | ].
    + destruct (Hf s eq_refl eq_refl).
    + eexists. split; [ reflexivity | apply failure_flag ].
    + eexists. split; [ reflexivity | apply failure_flag ].
  - eexists. split; [ reflexivity | apply failure_flag ].
Qed.

(** X16. A login never touches the saved data, and a login that fails
    writes nothing at all. *)
Theorem login_keeps_data (p : string) (clk : clock) (st : gmap string string) :
  exists r st',
    login p clk st = (Return r, st')
    /\ st' !! "categories" = st !! "categories"
    /\ st' !! "sites" = st !! "sites"
    /\ (success_flag r = false -> st' = st).
Proof.
  destruct (truthy (st !! "admin_password")) eqn:Ht.
  - destruct (st !! "admin_password") as [ P | ] eqn:EP; [ | discriminate Ht ].
    assert (HP : P <> "") by (intros ->; discriminate Ht).
    pose proof (login_known_password st P p clk EP HP) as Hlogin.
    destruct (String.eqb p P); eexists _, _; (split; [ exact Hlogin | ]).
    + rewrite !lookup_insert_ne by discriminate.
      split; [ reflexivity | ]. split; [ reflexivity | ]. intros Hc; discriminate Hc.
    + repeat split; reflexivity.
  - eexists _, _. split; [ exact (login_bootstrap st p clk Ht) | ].
    rewrite !lookup_insert_ne by discriminate.
    split; [ reflexivity | ]. split; [ reflexivity | ]. intros Hc; discriminate Hc.
Qed.

(** *** Cookies and tokens *)

Lemma session_pair_trimmed (tok : string) :
  base36_string tok = true ->
  trim ("admin_session=" +:+ tok) = "admin_session=" +:+ tok.
Proof.
  unfold base36_string. intros Hb.
  rewrite <- (string_of_list_ascii_of_string ("admin_session=" +:+ tok)).
  apply trim_unspaced; rewrite list_ascii_of_string_app.
  - reflexivity.
  - rewrite rev_app_distr.
    destruct (rev (list_ascii_of_string tok)) as [ | x r ] eqn:Er; [ reflexivity | ].
    pose proof (forallb_rev_true _ _ Hb) as Hr. rewrite Er in Hr.
    simpl in Hr. apply andb_prop in Hr as [Hx _].
    simpl. rewrite (base36_not_space x Hx). reflexivity.
Qed.

Lemma split_first_cookie (tok rest : string) :
  base36_string tok = true ->
  split ";" (("admin_session=" +:+ tok) +:+ String ";" rest)
  = ("admin_session=" +:+ tok) :: split ";" rest.
Proof.
  intros Hb. unfold split.
  rewrite list_ascii_of_string_app. cbn [list_ascii_of_string].
  destruct (split_chars_first ";" (list_ascii_of_string ("admin_session=" +:+ tok))
              (list_ascii_of_string rest)) as (x & -> & _).
  - rewrite list_ascii_of_string_app, forallb_app. apply andb_true_intro.
    split; [ reflexivity | ].
    revert Hb. apply forallb_impl_true. intros y Hy. apply base36_not_sep, Hy.
  - cbn [map]. rewrite string_of_list_ascii_of_string. reflexivity.
Qed.

(** X17. Only the first [admin_session] cookie counts: when the header
    starts with [admin_session=tok;], for a non-empty base-36 token, the
    request is authenticated exactly when [tok] is the stored token,
    whatever follows the semicolon. *)
Theorem first_session_cookie_counts (tok rest : string) (st : gmap string string) :
  base36_string tok = true -> tok <> "" ->
  checkSession (request_with_cookie (("admin_session=" +:+ tok) +:+ String ";" rest)) st
  = (Return (if decide (st !! "admin_session" = Some tok)
             then {| isAuthenticated := true; token := Some tok |}
             else anonymous),
     st).
Proof.
  intros Hb Hne. unfold checkSession, request_with_cookie, anonymous. run.
  change (truthy (Some (("admin_session=" +:+ tok) +:+ String ";" rest))) with true.
  cbn [negb default from_option id].
  rewrite (split_first_cookie tok rest Hb). cbn [map find].
  rewrite (session_pair_trimmed tok Hb), startsWith_append.
  cbn [truthy negb default from_option id].
  change (negb ("admin_session=" +:+ tok =? "")%string) with true. cbn [negb].
  rewrite (session_cookie_token tok Hb). cbn [truthy].
  destruct (String.eqb_spec tok ""); [ contradiction | ]. cbn [negb].
  destruct (st !! "admin_session") as [ t | ] eqn:Et;
    unfold of_nullable, VStr, VNull, strict_eq.
  - destruct (String.eqb_spec t tok) as [ -> | Hneq ].
    + destruct (decide (Some tok = Some tok)); [ reflexivity | contradiction ].
    + destruct (decide (Some t = Some tok)) as [ E | ]; [ | reflexivity ].
      injection E as ->. contradiction.
  - destruct (decide (None = Some tok)) as [ E | ]; [ discriminate E | reflexivity ].
Qed.

Lemma append_cancel (a b c : string) : a +:+ b = a +:+ c -> b = c.
Proof.
  induction a as [ | x a IH ]; simpl; intros H; [ exact H | ].
  injection H as H. apply IH, H.
Qed.

(** X18. The time of issue is part of the token: two tokens generated
    from the same random digits at different times are different. *)
Theorem token_differs_with_time (digits : list N) (n1 n2 : N) :
  n1 <> n2 ->
  generateToken {| random_digits := digits; now := n1 |}
  <> generateToken {| random_digits := digits; now := n2 |}.
Proof.
  intros Hne H. unfold generateToken in H. cbn [random_digits now] in H.
  apply append_cancel in H. apply Hne.
  rewrite <- (toString36_value n1), <- (toString36_value n2), H. reflexivity.
Qed.

(** X24. First use without a password: on a store without password, a
    form that has no [password] field hands [null] to the store. When
    the store turns it into a text, that text becomes the password and
    the login succeeds; when the store refuses it, the response is the
    server error and nothing is written. *)
Theorem bootstrap_without_password_field (entries : list (string * form_entry))
  (clk : clock) (st : gmap string string) :
  st !! "admin_password" = None ->
  assoc "password" entries = None ->
  handleRequest (auth_request (Some entries)) clk st =
  match put_coerce VNull with
  | Some s =>
    (Return (Response success_body [("Set-Cookie", session_cookie (generateToken clk))]),
     <["admin_session" := generateToken clk]> (<["admin_password" := s]> st))
  | None => (Return (Response (failure_body "服务器错误") json_headers), st)
  end.
Proof.
  intros Hst Hf.
  change (handleRequest (auth_request (Some entries)) clk st)
    with (handleAuth (auth_request (Some entries)) clk st).
  unfold handleAuth, auth_request. run. rewrite Hst. cbn [truthy negb].
  unfold form_get, put_text. rewrite Hf.
  change (put_coerce (VJson JNull)) with (put_coerce VNull).
  destruct (put_coerce VNull); reflexivity.
Qed.

End RouteFacts.

(** * Properties of the admin page script *)

Section AdminPageFacts.

Context {NUM : Numbers}.

#[local] Open Scope list_scope.

Lemma NoDup_snoc {A : Type} (l : list A) (x : A) :
  NoDup l -> ~ In x l -> NoDup (l ++ [x]).
Proof.
  induction 1 as [ | y l Hy Hl IH ]; simpl; intros Hx.
  - constructor; [ intros H; inversion H | constructor ].
  - constructor.
    + rewrite list_elem_of_In, in_app_iff. rewrite list_elem_of_In in Hy.
      simpl. intros [ H | [ H | [] ] ]; [ tauto | subst; tauto ].
    + apply IH. tauto.
Qed.

Lemma NoDup_splice1 {A : Type} (index : nat) (l : list A) :
  NoDup l -> NoDup (splice1 index l).
Proof.
  intros H. revert index. induction H as [ | y l Hy Hl IH ]; intros [ | i ]; simpl;
    try constructor; auto.
  rewrite list_elem_of_In in *. intros Hin. apply Hy.
  clear - Hin. revert i Hin. induction l as [ | z l IHl ]; intros [ | i ]; simpl;
    intros H; try tauto.
  destruct H as [ H | H ]; [ tauto | right; eapply IHl, H ].
Qed.


Lemma includes_In (l : list (json NUM)) (name : string) :
  includes l name = true <-> In (JStr name) l.
Proof.
  unfold includes. rewrite existsb_exists. split.
  - intros (x & Hin & Heq). destruct x; try discriminate Heq.
    cbn in Heq. apply String.eqb_eq in Heq. subst. exact Hin.
  - intros Hin. exists (JStr name). split; [ exact Hin | ].
    cbn. apply String.eqb_refl.
Qed.

Lemma sites_outside_filter (category : jsval NUM) (l kept : list (json NUM)) :
  sites_outside category l = Some kept ->
  kept = List.filter (fun site => negb (strict_eq (prop site "category") category)) l
  /\ ~ In JNull l.
Proof.
  revert kept. induction l as [ | site l IH ]; simpl; intros kept H.
  - injection H as <-. split; [ reflexivity | tauto ].
  - destruct (category_of site) as [ c | ] eqn:Ec; [ | discriminate H ].
    destruct (sites_outside category l) as [ r | ]; [ | discriminate H ].
    destruct (IH r eq_refl) as [ -> Hnull ].
    assert (Hc : c = prop site "category" /\ site <> JNull).
    { destruct site; cbn in Ec; try discriminate Ec; injection Ec as <-;
        (split; [ reflexivity | discriminate ]). }
    destruct Hc as [ -> Hsite ]. injection H as <-.
    split; [ reflexivity | ]. intros [ E | E ]; [ congruence | tauto ].
Qed.


Lemma after_keeps_distinct (k : click) (s : admin_state) :
  NoDup (categories s) -> NoDup (categories (after k s)).
Proof.
  intros Hnd. unfold after. destruct k as [ input | n u c i | confirmed index | confirmed index ];
    cbn [react].
  - unfold addCategory.
    destruct (negb (truthy (Some (trim input)))); [ exact Hnd | ].
    destruct (includes (categories s) (trim input)) eqn:Hin; cbn [negb]; [ exact Hnd | ].
    cbn [categories]. apply NoDup_snoc; [ exact Hnd | ].
    intros H. apply includes_In in H. congruence.
  - unfold addSite.
    repeat match goal with
           | |- context [ if ?b then _ else _ ] => destruct b
           end; exact Hnd.
  - unfold removeCategory. destruct confirmed; [ | exact Hnd ].
    destruct (sites_outside _ (sites s)); [ | exact Hnd ].
    cbn [categories]. apply NoDup_splice1, Hnd.
  - unfold removeSite. destruct confirmed; exact Hnd.
Qed.

(** X19. The console never creates a duplicate category: if the
    categories are pairwise distinct, they still are after any sequence
    of clicks. *)
Theorem categories_stay_distinct (ks : list click) (s : admin_state) :
  NoDup (categories s) -> NoDup (categories (after_all ks s)).
Proof.
  unfold after_all. revert s. induction ks as [ | k ks IH ]; intros s Hnd; simpl.
  - exact Hnd.
  - apply IH, after_keeps_distinct, Hnd.
Qed.

(** X20. Removing the category at [index] removes that entry and keeps
    exactly the sites whose category is not strictly equal to it, in
    their order. *)
Theorem removeCategory_removes_its_sites (index : nat) (s s' : admin_state)
  (c : json NUM) :
  nth_error (categories s) index = Some c ->
  removeCategory true index s = Done s' ->
  categories s' = splice1 index (categories s)
  /\ sites s' = List.filter (fun site => negb (strict_eq (prop site "category") (VJson c)))
                  (sites s)
  /\ forall site, In site (sites s') ->
       strict_eq (prop site "category") (VJson c) = false.
Proof.
  intros Hc H. unfold removeCategory in H. rewrite Hc in H.
  destruct (sites_outside (VJson c) (sites s)) as [ kept | ] eqn:E; [ | discriminate H ].
  injection H as <-. cbn [categories sites].
  apply sites_outside_filter in E as [ -> _ ].
  split; [ reflexivity | ]. split; [ reflexivity | ].
  intros site Hin. apply filter_In in Hin as [ _ Hin ].
  apply negb_true_iff in Hin. exact Hin.
Qed.





Lemma forallb_splice1 {A : Type} (P : A -> bool) (index : nat) (l : list A) :
  forallb P l = true -> forallb P (splice1 index l) = true.
Proof.
  revert index. induction l as [ | x l IH ]; intros [ | i ]; simpl; intros H;
    try reflexivity; apply andb_prop in H as [Hx Hl]; [ exact Hl | ].
  rewrite Hx, (IH i Hl). reflexivity.
Qed.

Lemma forallb_filter {A : Type} (P Q : A -> bool) (l : list A) :
  forallb P l = true -> forallb P (List.filter Q l) = true.
Proof.
  induction l as [ | x l IH ]; simpl; intros H; [ reflexivity | ].
  apply andb_prop in H as [Hx Hl]. destruct (Q x); simpl; rewrite ?Hx; auto.
Qed.

Lemma forallb_snoc {A : Type} (P : A -> bool) (l : list A) (x : A) :
  forallb P l = true -> P x = true -> forallb P (l ++ [x]) = true.
Proof. intros Hl Hx. rewrite forallb_app, Hl. simpl. rewrite Hx. reflexivity. Qed.

Lemma after_keeps_plain (k : click) (s : admin_state) :
  plain_page s -> plain_page (after k s).
Proof.
  intros [ Hc Hs ]. unfold after, plain_page.
  destruct k as [ input | n u c i | confirmed index | confirmed index ]; cbn [react].
  - unfold addCategory.
    repeat match goal with
           | |- context [ if ?b then _ else _ ] => destruct b
           end; cbn [categories sites]; try (split; assumption).
    split; [ apply forallb_snoc; [ exact Hc | reflexivity ] | exact Hs ].
  - unfold addSite.
    destruct (_ || _ || _); [ split; assumption | ].
    destruct (_ && _); [ split; assumption | ].
    cbn [categories sites].
    split; [ exact Hc | apply forallb_snoc; [ exact Hs | reflexivity ] ].
  - unfold removeCategory. destruct confirmed; [ | split; assumption ].
    destruct (sites_outside _ (sites s)) as [ kept | ] eqn:E; [ | split; assumption ].
    apply sites_outside_filter in E as [ -> _ ]. cbn [categories sites].
    split; [ apply forallb_splice1, Hc | apply forallb_filter, Hs ].
  - unfold removeSite. destruct confirmed; [ | split; assumption ].
    cbn [categories sites]. split; [ exact Hc | apply forallb_splice1, Hs ].
Qed.

Lemma clicks_keep_plain (ks : list click) (s : admin_state) :
  plain_page s -> plain_page (after_all ks s).
Proof.
  unfold after_all. revert s. induction ks as [ | k ks IH ]; intros s Hs; simpl.
  - exact Hs.
  - apply IH, after_keeps_plain, Hs.
Qed.

End AdminPageFacts.

Section ConsoleFacts.

Context {NUM : Numbers} {RT : Runtime NUM} {TPL : Templates}.

(** X23. What the console builds survives a save and a reload: for any
    sequence of clicks on the empty console, posting the variables with
    the save button and reading [/data] afterwards returns the same
    categories and sites. *)
Theorem console_state_round_trips (ks : list click) (c : option string)
  (clk clk' : clock) (st : gmap string string) :
  let s := after_all ks empty_page in
  exists st' r,
    saveData c (page_body s) clk st = (Return (Response success_body json_headers), st')
    /\ getData clk' st' = (Return r, st')
    /\ json_parse (body r)
       = Some (JObj [("categories", JArr (categories s)); ("sites", JArr (sites s))]).
Proof.
  intros s.
  assert (Hplain : plain_page s).
  { apply clicks_keep_plain. split; reflexivity. }
  destruct Hplain as [ Hc Hs ].
  assert (Hbody : plain (JObj [("categories", JArr (categories s));
                               ("sites", JArr (sites s))]) = true).
  { cbn [plain forallb snd map fst]. rewrite Hc, Hs. reflexivity. }
  eexists _, _. split; [ | split ].
  - rewrite saveData_run. unfold page_body.
    rewrite (json_parse_stringify _ Hbody). reflexivity.
  - apply getData_decodes
      with (tc := json_stringify (JArr (categories s)))
           (ts := json_stringify (JArr (sites s))).
    + rewrite lookup_insert_ne by discriminate. apply lookup_insert_eq.
    + apply lookup_insert_eq.
    + apply stringify_truthy. exact Hc.
    + apply stringify_truthy. exact Hs.
    + apply json_parse_stringify. exact Hc.
    + apply json_parse_stringify. exact Hs.
  - cbn [body Response]. unfold data_body. apply json_parse_stringify, Hbody.
Qed.

End ConsoleFacts.

(** * Concrete runs *)

Import Demo.

(** C1. A POST to [/admin/save] without any cookie is not authenticated
    by [checkSession], and yet it replaces the stored categories and
    sites: the router hands the request to the data handler before any
    session check. *)
Theorem save_without_session_overwrites :
  let t := save_body (JArr []) (JArr []) in
  let req := json_request "/admin/save" None t in
  checkSession req used_store
  = (Return {| isAuthenticated := false; token := None |}, used_store)
  /\ used_store !! "categories" = Some (json_stringify work)
  /\ used_store !! "sites" = Some (json_stringify github)
  /\ exists st',
       handleRequest req noon used_store
       = (Return (Response success_body json_headers), st')
       /\ st' !! "categories" = Some "[]"
       /\ st' !! "sites" = Some "[]".
Proof.
  cbv zeta. split; [ reflexivity | ].
  split; [ unfold used_store; rewrite lookup_insert_ne by discriminate;
           apply lookup_insert_eq | ].
  split; [ apply lookup_insert_eq | ].
  eexists. split.
  - change (handleRequest (json_request "/admin/save" None (save_body (JArr []) (JArr [])))
              noon used_store)
      with (saveData None (save_body (JArr []) (JArr [])) noon used_store).
    rewrite saveData_run. unfold save_body.
    rewrite json_parse_stringify by reflexivity. reflexivity.
  - split.
    + rewrite lookup_insert_ne by discriminate. apply lookup_insert_eq.
    + apply lookup_insert_eq.
Qed.

(** C2, as stated, fails for the stored password [""]: the empty string
    is falsy, so the request takes the bootstrap branch and any password
    is accepted. *)
Lemma auth_correct_fails_on_empty_password : ~ auth_correct "" "x".
Proof.
  intros H.
  (* the store left by [login ""] on the empty store *)
  destruct (H (<["admin_session" := generateToken noon]> (<["admin_password" := ""]> ∅))
              later)
    as (r & st' & Hrun & Hiff & _).
  - rewrite lookup_insert_ne by discriminate. apply lookup_insert_eq.
  - rewrite login_bootstrap in Hrun
      by (rewrite lookup_insert_ne by discriminate; rewrite lookup_insert_eq; reflexivity).
    injection Hrun as <- <-.
    assert (Hx : "x" = "") by (apply Hiff, success_flag_success).
    discriminate Hx.
Qed.

Lemma auth_correct_nonempty_witness :
  "abc123" <> "" /\ auth_correct "abc123" "wrong".
Proof.
  split; [ discriminate | ].
  apply (auth_correct_nonempty "abc123" "wrong"). discriminate.
Defined.

Lemma save_then_get_witness :
  json_parse (save_body work github)
  = Some (JObj [("categories", work); ("sites", github)])
  /\ exists st' r,
       saveData None (save_body work github) noon ∅
       = (Return (Response success_body json_headers), st')
       /\ getData later st' = (Return r, st')
       /\ status r = 200
       /\ body r = data_body work github
       /\ json_parse (body r) = Some (JObj [("categories", work); ("sites", github)]).
Proof.
  split; [ vm_compute; reflexivity | ].
  apply (save_then_get ∅ None (save_body work github) noon later
           (JObj [("categories", work); ("sites", github)])
           [JStr "Work"]
           [JObj [("name", JStr "GitHub"); ("url", JStr "https://github.com");
                  ("category", JStr "Work"); ("icon", JStr "")]]);
    vm_compute; reflexivity.
Defined.

Lemma bootstrap_sets_password_witness :
  (∅ : gmap string string) !! "admin_password" = None
  /\ exists r st',
       login "abc123" noon ∅ = (Return r, st')
       /\ success_flag r = true
       /\ body r = success_body
       /\ headers r = [("Set-Cookie", session_cookie (generateToken noon))]
       /\ st' !! "admin_password" = Some "abc123"
       /\ st' !! "admin_session" = Some (generateToken noon)
       /\ st' = <["admin_session" := generateToken noon]> (<["admin_password" := "abc123"]> ∅).
Proof.
  split; [ reflexivity | ].
  apply (bootstrap_sets_password ∅ "abc123" noon). reflexivity.
Defined.

Lemma used_store_password : used_store !! "admin_password" = Some "abc123".
Proof.
  unfold used_store. rewrite !lookup_insert_ne by discriminate. apply lookup_insert_eq.
Qed.

Lemma first_login :
  login "abc123" noon ∅
  = (Return (Response success_body [("Set-Cookie", session_cookie (generateToken noon))]),
     <["admin_session" := generateToken noon]> (<["admin_password" := "abc123"]> ∅)).
Proof. apply login_bootstrap. reflexivity. Qed.

Lemma second_login :
  login "abc123" later
    (<["admin_session" := generateToken noon]> (<["admin_password" := "abc123"]> ∅))
  = (Return (Response success_body [("Set-Cookie", session_cookie (generateToken later))]),
     <["admin_session" := generateToken later]>
       (<["admin_session" := generateToken noon]> (<["admin_password" := "abc123"]> ∅))).
Proof.
  rewrite (login_known_password _ "abc123" "abc123" later).
  - reflexivity.
  - rewrite lookup_insert_ne by discriminate. apply lookup_insert_eq.
  - discriminate.
Qed.

Lemma tokens_differ : generateToken noon <> generateToken later.
Proof. vm_compute. discriminate. Qed.

Lemma single_active_session_witness :
  let st1 := <["admin_session" := generateToken noon]> (<["admin_password" := "abc123"]> ∅) in
  let st2 := <["admin_session" := generateToken later]> st1 in
  generateToken noon <> generateToken later
  /\ st1 !! "admin_session" = Some (generateToken noon)
  /\ st2 !! "admin_session" = Some (generateToken later)
  /\ checkSession (request_with_token (generateToken noon)) st2
     = (Return {| isAuthenticated := false; token := None |}, st2)
  /\ checkSession (request_with_token (generateToken later)) st2
     = (Return {| isAuthenticated := true; token := Some (generateToken later) |}, st2).
Proof.
  cbv zeta. split; [ exact tokens_differ | ].
  exact (single_active_session _ _ _ "abc123" "abc123" noon later _ _
           first_login (success_flag_success _)
           second_login (success_flag_success _) tokens_differ).
Defined.

Lemma changePassword_guard_witness :
  let t := change_body (JStr "wrong") (JStr "newpass1") (JStr "newpass1") in
  json_parse t = Some (change_fields (JStr "wrong") (JStr "newpass1") (JStr "newpass1"))
  /\ exists r,
       changePassword None t noon used_store = (Return r, used_store)
       /\ success_flag r = false
       /\ body r = failure_body "当前密码错误".
Proof.
  cbv zeta. split; [ apply json_parse_stringify; reflexivity | ].
  destruct (changePassword_guard used_store "abc123" None
              (change_body (JStr "wrong") (JStr "newpass1") (JStr "newpass1")) noon
              (change_fields (JStr "wrong") (JStr "newpass1") (JStr "newpass1"))
              used_store_password
              (json_parse_stringify
                 (change_fields (JStr "wrong") (JStr "newpass1") (JStr "newpass1")) eq_refl)
              (or_introl eq_refl))
    as (r & Hrun & Hflag & Hbody).
  exists r. split; [ exact Hrun | ]. split; [ exact Hflag | ].
  apply Hbody; [ discriminate | reflexivity ].
Defined.

Lemma good_change :
  changePassword None (change_body (JStr "abc123") (JStr "newpass1") (JStr "newpass1"))
    noon used_store
  = (Return (Response password_changed_body json_headers),
     <["admin_password" := "newpass1"]> used_store).
Proof.
  rewrite changePassword_run. unfold change_body.
  rewrite json_parse_stringify by reflexivity.
  rewrite used_store_password. reflexivity.
Qed.

Lemma changePassword_frame_witness :
  let st' := <["admin_password" := "newpass1"]> used_store in
  (exists s, st' = <["admin_password" := s]> used_store)
  /\ st' !! "admin_session" = used_store !! "admin_session"
  /\ st' !! "categories" = used_store !! "categories"
  /\ st' !! "sites" = used_store !! "sites"
  /\ (forall key, key <> "admin_password" -> st' !! key = used_store !! key).
Proof.
  exact (changePassword_frame _ _ _ _ _ _ good_change eq_refl).
Defined.

Lemma changePassword_null_on_fresh_store_witness :
  let t := change_body JNull (JStr "newpass1") (JStr "newpass1") in
  (∅ : gmap string string) !! "admin_password" = None
  /\ changePassword None t noon ∅
     = (Return (Response password_changed_body json_headers),
        <["admin_password" := "newpass1"]> ∅)
  /\ success_flag (Response password_changed_body json_headers) = true.
Proof.
  cbv zeta. split; [ reflexivity | ].
  exact (changePassword_null_on_fresh_store ∅ None
           (change_body JNull (JStr "newpass1") (JStr "newpass1")) noon
           (change_fields JNull (JStr "newpass1") (JStr "newpass1"))
           "newpass1" eq_refl
           (json_parse_stringify
              (change_fields JNull (JStr "newpass1") (JStr "newpass1")) eq_refl)
           eq_refl eq_refl eq_refl).
Defined.

(** C8. A cookie whose value continues after a second [=] is cut at
    that character: the request below is authenticated although the
    value of its [admin_session] cookie is not the stored token. *)
Theorem checkSession_cuts_at_second_equals :
  let st : gmap string string := <["admin_session" := "abz0loyw3v28"]> ∅ in
  let req := request_with_token "abz0loyw3v28=x" in
  cookie req = Some "admin_session=abz0loyw3v28=x"
  /\ st !! "admin_session" = Some "abz0loyw3v28"
  /\ "abz0loyw3v28=x" <> "abz0loyw3v28"
  /\ checkSession req st
     = (Return {| isAuthenticated := true; token := Some "abz0loyw3v28" |}, st).
Proof.
  cbv zeta. split; [ reflexivity | ].
  split; [ apply lookup_insert_eq | ].
  split; [ discriminate | ].
  unfold checkSession. run.
  change (truthy (Some ("admin_session=" +:+ "abz0loyw3v28=x"))) with true.
  cbn [negb default from_option id].
  replace (map trim (split ";" ("admin_session=" +:+ "abz0loyw3v28=x")))
    with ["admin_session=abz0loyw3v28=x"] by (vm_compute; reflexivity).
  cbn [find]. 
  replace (startsWith "admin_session=abz0loyw3v28=x" "admin_session=") with true
    by (vm_compute; reflexivity).
  cbn [truthy negb default from_option id String.eqb].
  replace (nth_error (split "=" "admin_session=abz0loyw3v28=x") 1)
    with (Some "abz0loyw3v28") by (vm_compute; reflexivity).
  cbn [truthy negb]. replace (negb ("abz0loyw3v28" =? "")%string) with true by reflexivity.
  cbn [negb]. rewrite lookup_insert_eq. reflexivity.
Qed.

(** ** Runs of the further properties *)

Import Samples.

Lemma logout_keeps_password_witness :
  exists r st1 r' st2,
    logout None noon used_store = (Return r, st1)
    /\ login "abc123" later st1 = (Return r', st2)
    /\ (success_flag r' = true <-> "abc123" = "abc123")
    /\ st2 !! "admin_password" = Some "abc123".
Proof.
  apply (logout_keeps_password None noon later used_store "abc123" "abc123").
  - exact used_store_password.
  - discriminate.
Defined.

Lemma unknown_path_serves_home_page_witness :
  handleRequest post_data noon used_store = (Return home_response, used_store).
Proof.
  apply (unknown_path_serves_home_page post_data noon used_store).
  - reflexivity.
  - intros _. discriminate.
Defined.

Lemma only_actions_write_witness :
  exists r, handleRequest wrong_verb noon used_store = (Return r, used_store).
Proof. apply (only_actions_write wrong_verb noon used_store). reflexivity. Defined.

Lemma session_lifecycle_witness :
  let st1 := <["admin_session" := generateToken noon]> (<["admin_password" := "abc123"]> ∅) in
  handleRequest (request_with_token (generateToken noon)) later st1
  = (Return (console_response (generateToken noon)), st1)
  /\ exists r2 st2,
       logout None later st1 = (Return r2, st2)
       /\ handleRequest (request_with_token (generateToken noon)) later st2
          = (Return login_page_response, st2).
Proof.
  exact (proj2 (session_lifecycle ∅ _ "abc123" noon later later None _
                  first_login (success_flag_success _))).
Defined.

Lemma first_password_wins_witness :
  exists r1 st1 r2 st2,
    login "abc123" noon ∅ = (Return r1, st1)
    /\ success_flag r1 = true
    /\ login "wrong" later st1 = (Return r2, st2)
    /\ (success_flag r2 = true <-> "wrong" = "abc123")
    /\ st2 !! "admin_password" = Some "abc123".
Proof.
  apply (first_password_wins ∅ "abc123" "wrong" noon later).
  - reflexivity.
  - discriminate.
Defined.

Lemma empty_new_password_reopens_bootstrap_witness :
  exists st1,
    changePassword None (change_body (JStr "abc123") (JStr "") (JStr "")) noon used_store
    = (Return (Response password_changed_body json_headers), st1)
    /\ forall q clk', exists r st2,
         login q clk' st1 = (Return r, st2)
         /\ success_flag r = true
         /\ st2 !! "admin_password" = Some q.
Proof.
  exact (empty_new_password_reopens_bootstrap used_store "abc123" None
           (change_body (JStr "abc123") (JStr "") (JStr "")) noon
           (change_fields (JStr "abc123") (JStr "") (JStr ""))
           used_store_password
           (json_parse_stringify (change_fields (JStr "abc123") (JStr "") (JStr "")) eq_refl)
           eq_refl eq_refl eq_refl).
Defined.

Lemma changed_password_logs_in_witness :
  exists st1,
    changePassword None (change_body (JStr "abc123") (JStr "newpass1") (JStr "newpass1"))
      noon used_store
    = (Return (Response password_changed_body json_headers), st1)
    /\ forall q clk', exists r st2,
         login q clk' st1 = (Return r, st2)
         /\ (success_flag r = true <-> q = "newpass1").
Proof.
  apply (changed_password_logs_in used_store "abc123" "newpass1" None
           (change_body (JStr "abc123") (JStr "newpass1") (JStr "newpass1")) noon
           (change_fields (JStr "abc123") (JStr "newpass1") (JStr "newpass1"))
           used_store_password
           (json_parse_stringify
              (change_fields (JStr "abc123") (JStr "newpass1") (JStr "newpass1")) eq_refl)
           eq_refl eq_refl eq_refl).
  discriminate.
Defined.

Lemma malformed_body_writes_nothing_witness :
  saveData None "not json" noon used_store
  = (Return (Response (failure_body "保存失败") json_headers), used_store)
  /\ changePassword None "not json" noon used_store
     = (Return (Response (failure_body "修改失败") json_headers), used_store).
Proof.
  apply (malformed_body_writes_nothing None "not json" noon used_store).
  left. vm_compute. reflexivity.
Defined.


Lemma login_without_text_password_witness :
  exists r,
    handleRequest (auth_request (Some [("user", FormText "abc123"); ("password", FormFile)]))
      noon used_store = (Return r, used_store)
    /\ success_flag r = false.
Proof.
  apply (login_without_text_password
           (Some [("user", FormText "abc123"); ("password", FormFile)])
           noon used_store "abc123").
  - exact used_store_password.
  - discriminate.
  - intros entries s H. injection H as <-. discriminate.
Defined.

Lemma first_session_cookie_counts_witness :
  checkSession
    (request_with_cookie (("admin_session=" +:+ "wrong0") +:+ String ";" " admin_session=abz0loyw3v28"))
    used_store
  = (Return (if decide (used_store !! "admin_session" = Some "wrong0")
             then {| isAuthenticated := true; token := Some "wrong0" |}
             else anonymous),
     used_store).
Proof.
  apply (first_session_cookie_counts "wrong0" " admin_session=abz0loyw3v28" used_store).
  - reflexivity.
  - discriminate.
Defined.

Lemma token_differs_with_time_witness :
  generateToken {| random_digits := [10; 11]%N; now := 1700000000000%N |}
  <> generateToken {| random_digits := [10; 11]%N; now := 1700000000001%N |}.
Proof.
  apply (token_differs_with_time [10; 11]%N 1700000000000%N 1700000000001%N).
  discriminate.
Defined.

Lemma categories_stay_distinct_witness :
  NoDup (categories (after_all some_clicks empty_page)).
Proof. apply (categories_stay_distinct some_clicks empty_page). constructor. Defined.

Lemma removeCategory_removes_its_sites_witness :
  removeCategory true 0 two_categories = Done only_play
  /\ categories only_play = splice1 0 (categories two_categories)
  /\ sites only_play
     = List.filter (fun site => negb (strict_eq (prop site "category") (VJson (JStr "Work"))))
         (sites two_categories)
  /\ forall site, In site (sites only_play) ->
       strict_eq (prop site "category") (VJson (JStr "Work")) = false.
Proof.
  split; [ reflexivity | ].
  apply (removeCategory_removes_its_sites 0 two_categories only_play (JStr "Work")).
  - reflexivity.
  - reflexivity.
Defined.



Lemma bootstrap_without_password_field_witness :
  handleRequest (auth_request (Some [("user", FormText "root")])) noon ∅
  = (Return (Response success_body [("Set-Cookie", session_cookie (generateToken noon))]),
     <["admin_session" := generateToken noon]> (<["admin_password" := "null"]> ∅)).
Proof.
  exact (bootstrap_without_password_field [("user", FormText "root")] noon ∅
           eq_refl eq_refl).
Defined.
